(** * CarbonChain: the AMM quote and the in-memory ledger

    A shallow embedding of the contract layer of CarbonChain
    ([tCO2TokenContract], [MarketplaceContract], [StakingContract]) and of the
    services it calls ([MarketDataService], [TransactionManager],
    [IPFSService]), together with the wallet manager and the click handlers
    of [app.js].

    Numbers.  JavaScript numbers are IEEE-754 doubles.  The ledger is
    embedded over exact rationals ([Q]), with [==] for equality of amounts.
    What is stated of it is what reads the same in double arithmetic: the
    order of checks and writes, which fields a call writes, single
    assignments written as the code writes them ([l - a], [(l - a) + a]),
    comparisons, and bounds that hold with a margin far above the rounding
    of doubles on the ranges they are stated for.  Laws of exact arithmetic
    (a round trip that restores a value, a conserved sum, a strict
    inequality between nearby values) are not laws of the code: the module
    [Binary64] evaluates the code's arithmetic on binary64 floats, and the
    inputs where such laws fail are computed there.
    A division whose divisor is zero ([Infinity] or [NaN]) has no value in
    [Q]; it is evaluated in [Binary64].

    Effects.  The contract methods read and write one shared object
    ([window.CarbonChainAPI.AppState]) and the wallet manager, and they throw.
    They are embedded in a state-and-exception monad over [World]; a thrown
    error keeps the writes made before the throw, as in JavaScript.  The
    values a call draws from the clock, from [Math.random] and from the
    content store are the fields of an [Env] passed to the call. *)

From Stdlib Require Import QArith Qabs Qround ZArith List String Bool Lia Lqa.
From Stdlib Require Import Floats.
#[local] Set Warnings "-inexact-float".
Import ListNotations.

Open Scope Q_scope.

(** ** JavaScript numbers as rationals *)

Module JS.

(** [x < y] as the test of an [if]. *)
Definition ltb (x y : Q) : bool := negb (Qle_bool y x).

(** [x <= y] as the test of an [if]. *)
Definition leb (x y : Q) : bool := Qle_bool x y.

(** [parseFloat] applied to a number: the number is printed and read back,
    which gives the number itself. *)
Definition parseFloat (x : Q) : Q := x.

(** [x.toFixed(2)]: the multiple [n / 100] nearest to [x], the larger [n]
    on a tie; a negative [x] is rendered as the sign and [(-x).toFixed(2)].
    The string is kept as the number it spells. *)
Definition toFixed2 (x : Q) : Q :=
  if ltb x 0
  then - (Qfloor ((- x) * 100 + (1 # 2)) # 100)
  else Qfloor (x * 100 + (1 # 2)) # 100.

End JS.

(** ** Errors and outcomes *)

(** The errors of the contract layer, under the names of the specification.
    [message] is the text of the [Error] the code throws; [StorageUnavailable]
    is whatever a rejected upload throws, the code has no text for it. *)
Inductive Error : Type :=
| NotConnected
| InsufficientBalance
| InsufficientStaked
| NothingToClaim
| StorageUnavailable.

Definition message (e : Error) : option string :=
  match e with
  | NotConnected => Some "Please connect your wallet first"%string
  | InsufficientBalance => Some "Insufficient tCO2 balance"%string
  | InsufficientStaked => Some "Insufficient staked balance"%string
  | NothingToClaim => Some "No rewards to claim"%string
  | StorageUnavailable => None
  end.

Inductive outcome (A : Type) : Type :=
| Returned (a : A)
| Thrown (e : Error).

Arguments Returned {A} a.
Arguments Thrown {A} e.

(** ** MarketDataService *)

(** The default of the parameter [fee] of [calculateSwapOutput]. *)
Definition defaultFee : Q := 3 # 1000.

(** [calculateSwapOutput(inputAmount, inputReserve, outputReserve, fee)]. *)
Definition calculateSwapOutput (inputAmount inputReserve outputReserve fee : Q)
  : Q :=
  let inputAmountWithFee := inputAmount * (1 - fee) in
  let numerator := inputAmountWithFee * outputReserve in
  let denominator := inputReserve + inputAmountWithFee in
  numerator / denominator.

Record Reserves : Type := mkReserves { tCO2 : Q; USDT : Q }.

(** [getPoolReserves()]: the pool is a constant. *)
Definition getPoolReserves : Reserves :=
  {| tCO2 := 1000000; USDT := 15500000 |}.

(** ** The shared state *)

(** The bodies of the transactions the contract layer records; [type] is the
    string the code stores in the field [type]. *)
Inductive TxBody : Type :=
| MintTx (amount : Q) (projectId : string)
| RetireTx (amount : Q) (certificateId : string)
| BuyTx (inputAmount outputAmount price : Q)
| SellTx (inputAmount outputAmount price : Q)
| StakeTx (amount apy : Q)
| UnstakeTx (amount : Q)
| ClaimRewardsTx (amount : Q).

Definition type (b : TxBody) : string :=
  match b with
  | MintTx _ _ => "mint"
  | RetireTx _ _ => "retire"
  | BuyTx _ _ _ => "buy"
  | SellTx _ _ _ => "sell"
  | StakeTx _ _ => "stake"
  | UnstakeTx _ => "unstake"
  | ClaimRewardsTx _ => "claim_rewards"
  end.

(** What [addTransaction] receives: the body, [status] and [hash]. *)
Record TxRequest : Type := mkTxRequest {
  req_body : TxBody;
  req_status : string;
  req_hash : string
}.

(** What [addTransaction] stores: [{id, timestamp, ...tx}]. *)
Record Transaction : Type := mkTransaction {
  id : string;
  timestamp : string;
  body : TxBody;
  status : string;
  hash : string
}.

(** The proof-of-retirement certificate built by [burn]. *)
Record Certificate : Type := mkCertificate {
  cert_id : string;
  cert_amount : Q;
  cert_date : string;
  cert_wallet : option string;
  cert_reason : string;
  ipfsHash : option string
}.

(** [AppState.wallet]. *)
Record Wallet : Type := mkWallet {
  address : option string;
  balance : Q;
  tCO2Balance : Q;
  stakedBalance : Q;
  rewards : Q
}.

(** [AppState.stats]. *)
Record Stats : Type := mkStats {
  totalMinted : Q;
  totalRetired : Q;
  totalStaked : Q
}.

(** [AppState]: the fields the contract layer touches.  The array of
    [TransactionManager] and [AppState.transactions] are one array after the
    first [addTransaction]; it is the field [transactions]. *)
Record AppState : Type := mkAppState {
  wallet : Wallet;
  stats : Stats;
  transactions : list Transaction;
  retirements : list Certificate
}.

(** The wallet manager ([connected], [address]) and [AppState]. *)
Record World : Type := mkWorld {
  connected : bool;
  walletAddress : option string;
  app : AppState
}.

(** What one call draws from outside: the clock, [Math.random] and the
    content store.  [uploadResult] is the outcome of
    [ipfsService.upload(certificate)]: [Some cid] when the promise resolves,
    [None] when it rejects. *)
Record Env : Type := mkEnv {
  nowISO : string;
  txId : string;
  txHash : string;
  certificateId : string;
  uploadResult : option string
}.

(** ** State and exceptions *)

Definition M (A : Type) : Type := World -> outcome A * World.

Definition ret {A : Type} (a : A) : M A := fun w => (Returned a, w).

Definition throw {A : Type} (e : Error) : M A := fun w => (Thrown e, w).

Definition bind {A B : Type} (m : M A) (k : A -> M B) : M B :=
  fun w =>
    match m w with
    | (Returned a, w') => k a w'
    | (Thrown e, w') => (Thrown e, w')
    end.

Definition get : M World := fun w => (Returned w, w).

Definition modify (f : World -> World) : M unit := fun w => (Returned tt, f w).

(** [try { m } catch (error) { h error }]. *)
Definition tryCatch {A : Type} (m : M A) (h : Error -> M A) : M A :=
  fun w =>
    match m w with
    | (Returned a, w') => (Returned a, w')
    | (Thrown e, w') => h e w'
    end.

Declare Scope js_scope.
Delimit Scope js_scope with js.
Notation "x <- m ;; k" := (bind m (fun x => k))
  (at level 61, m at next level, right associativity) : js_scope.
Notation "m ;; k" := (bind m (fun _ => k))
  (at level 61, right associativity) : js_scope.

(** [if (c) { throw new Error(message e); }]. *)
Definition throwIf (c : bool) (e : Error) : M unit :=
  if c then throw e else ret tt.

(** The [catch] clause of every contract method: log and throw again. *)
Definition rethrow {A : Type} (e : Error) : M A := throw e.

(** ** Field updates *)

Definition updWallet (f : Wallet -> Wallet) (w : World) : World :=
  {| connected := connected w;
     walletAddress := walletAddress w;
     app := {| wallet := f (wallet (app w));
               stats := stats (app w);
               transactions := transactions (app w);
               retirements := retirements (app w) |} |}.

Definition updStats (f : Stats -> Stats) (w : World) : World :=
  {| connected := connected w;
     walletAddress := walletAddress w;
     app := {| wallet := wallet (app w);
               stats := f (stats (app w));
               transactions := transactions (app w);
               retirements := retirements (app w) |} |}.

Definition updTCO2Balance (f : Q -> Q) : World -> World :=
  updWallet (fun a =>
    {| address := address a; balance := balance a;
       tCO2Balance := f (tCO2Balance a);
       stakedBalance := stakedBalance a; rewards := rewards a |}).

Definition updStakedBalance (f : Q -> Q) : World -> World :=
  updWallet (fun a =>
    {| address := address a; balance := balance a;
       tCO2Balance := tCO2Balance a;
       stakedBalance := f (stakedBalance a); rewards := rewards a |}).

Definition updRewards (f : Q -> Q) : World -> World :=
  updWallet (fun a =>
    {| address := address a; balance := balance a;
       tCO2Balance := tCO2Balance a;
       stakedBalance := stakedBalance a; rewards := f (rewards a) |}).

Definition updTotalMinted (f : Q -> Q) : World -> World :=
  updStats (fun s =>
    {| totalMinted := f (totalMinted s);
       totalRetired := totalRetired s; totalStaked := totalStaked s |}).

Definition updTotalRetired (f : Q -> Q) : World -> World :=
  updStats (fun s =>
    {| totalMinted := totalMinted s;
       totalRetired := f (totalRetired s); totalStaked := totalStaked s |}).

Definition updTotalStaked (f : Q -> Q) : World -> World :=
  updStats (fun s =>
    {| totalMinted := totalMinted s;
       totalRetired := totalRetired s; totalStaked := f (totalStaked s) |}).

Definition unshiftTransaction (t : Transaction) (w : World) : World :=
  {| connected := connected w;
     walletAddress := walletAddress w;
     app := {| wallet := wallet (app w);
               stats := stats (app w);
               transactions := t :: transactions (app w);
               retirements := retirements (app w) |} |}.

Definition unshiftRetirement (c : Certificate) (w : World) : World :=
  {| connected := connected w;
     walletAddress := walletAddress w;
     app := {| wallet := wallet (app w);
               stats := stats (app w);
               transactions := transactions (app w);
               retirements := c :: retirements (app w) |} |}.

(** The three balance fields of [AppState.wallet], read from the world. *)
Definition liquidAmount (w : World) : Q := tCO2Balance (wallet (app w)).
Definition stakedAmount (w : World) : Q := stakedBalance (wallet (app w)).
Definition pendingRewards (w : World) : Q := rewards (wallet (app w)).
Definition history (w : World) : list Transaction := transactions (app w).
Definition certificates (w : World) : list Certificate := retirements (app w).

(** ** Services *)

Local Open Scope js_scope.

(** [TransactionManager.addTransaction(tx)]: a fresh [id] and [timestamp],
    [unshift] on the history, the stored record returned. *)
Definition addTransaction (e : Env) (tx : TxRequest) : M Transaction :=
  let transaction :=
    {| id := txId e; timestamp := nowISO e;
       body := req_body tx; status := req_status tx; hash := req_hash tx |} in
  modify (unshiftTransaction transaction) ;;
  ret transaction.

(** [generateTxHash()] and [generateCertificateId()]: random strings. *)
Definition generateTxHash (e : Env) : string := txHash e.
Definition generateCertificateId (e : Env) : string := certificateId e.

(** [simulateTransaction(message)]: a promise that resolves after a delay. *)
Definition simulateTransaction : M unit := ret tt.

(** What [IPFSService.upload] resolves to. *)
Record IpfsResult : Type := mkIpfsResult {
  cid : string;
  url : string;
  data : Certificate
}.

(** [ipfsService.upload(data)].  The mock of the repository always resolves;
    [burn] reaches the service through [window.CarbonChainAPI.ipfsService]
    and awaits it, so the outcome of the await is taken from [Env]: a
    rejection is thrown at the [await]. *)
Definition upload (e : Env) (d : Certificate) : M IpfsResult :=
  match uploadResult e with
  | Some mockCID =>
      ret {| cid := mockCID; url := "https://ipfs.io/ipfs/" ++ mockCID; data := d |}
  | None => throw StorageUnavailable
  end.

(** ** tCO2TokenContract *)

(** [mint(projectId, amount)]. *)
Definition mint (e : Env) (projectId : string) (amount : Q) : M Transaction :=
  w <- get ;;
  throwIf (negb (connected w)) NotConnected ;;
  tryCatch
    (simulateTransaction ;;
     modify (updTCO2Balance (fun b => b + JS.parseFloat amount)) ;;
     modify (updTotalMinted (fun t => t + JS.parseFloat amount)) ;;
     tx <- addTransaction e
             {| req_body := MintTx amount projectId;
                req_status := "completed";
                req_hash := generateTxHash e |} ;;
     ret tx)
    rethrow.

(** [burn(amount, reason)]: the retirement. *)
Definition burn (e : Env) (amount : Q) (reason : string)
  : M (Transaction * Certificate) :=
  w <- get ;;
  throwIf (negb (connected w)) NotConnected ;;
  throwIf (JS.ltb (tCO2Balance (wallet (app w))) amount) InsufficientBalance ;;
  tryCatch
    (simulateTransaction ;;
     modify (updTCO2Balance (fun b => b - JS.parseFloat amount)) ;;
     modify (updTotalRetired (fun t => t + JS.parseFloat amount)) ;;
     w1 <- get ;;
     let certificate :=
       {| cert_id := generateCertificateId e;
          cert_amount := amount;
          cert_date := nowISO e;
          cert_wallet := walletAddress w1;
          cert_reason := reason;
          ipfsHash := None |} in
     ipfsResult <- upload e certificate ;;
     let certificate :=
       {| cert_id := cert_id certificate;
          cert_amount := cert_amount certificate;
          cert_date := cert_date certificate;
          cert_wallet := cert_wallet certificate;
          cert_reason := cert_reason certificate;
          ipfsHash := Some (cid ipfsResult) |} in
     modify (unshiftRetirement certificate) ;;
     tx <- addTransaction e
             {| req_body := RetireTx amount (cert_id certificate);
                req_status := "completed";
                req_hash := generateTxHash e |} ;;
     ret (tx, certificate))
    rethrow.

(** ** MarketplaceContract *)

(** [swapUSDTForTCO2(usdtAmount, slippage)]: the buy.  [minOutput] is
    computed and not read again. *)
Definition swapUSDTForTCO2 (e : Env) (usdtAmount slippage : Q)
  : M (Transaction * Q) :=
  w <- get ;;
  throwIf (negb (connected w)) NotConnected ;;
  tryCatch
    (simulateTransaction ;;
     let reserves := getPoolReserves in
     let tCO2Output :=
       calculateSwapOutput usdtAmount (USDT reserves) (tCO2 reserves) defaultFee in
     let minOutput := tCO2Output * (1 - slippage / 100) in
     modify (updTCO2Balance (fun b => b + tCO2Output)) ;;
     tx <- addTransaction e
             {| req_body := BuyTx usdtAmount (JS.toFixed2 tCO2Output)
                                  (JS.toFixed2 (usdtAmount / tCO2Output));
                req_status := "completed";
                req_hash := generateTxHash e |} ;;
     ret (tx, tCO2Output))
    rethrow.

(** [swapTCO2ForUSDT(tCO2Amount, slippage)]: the sell. *)
Definition swapTCO2ForUSDT (e : Env) (tCO2Amount slippage : Q)
  : M (Transaction * Q) :=
  w <- get ;;
  throwIf (negb (connected w)) NotConnected ;;
  throwIf (JS.ltb (tCO2Balance (wallet (app w))) tCO2Amount) InsufficientBalance ;;
  tryCatch
    (simulateTransaction ;;
     let reserves := getPoolReserves in
     let usdtOutput :=
       calculateSwapOutput tCO2Amount (tCO2 reserves) (USDT reserves) defaultFee in
     let minOutput := usdtOutput * (1 - slippage / 100) in
     modify (updTCO2Balance (fun b => b - JS.parseFloat tCO2Amount)) ;;
     tx <- addTransaction e
             {| req_body := SellTx tCO2Amount (JS.toFixed2 usdtOutput)
                                   (JS.toFixed2 (usdtOutput / tCO2Amount));
                req_status := "completed";
                req_hash := generateTxHash e |} ;;
     ret (tx, usdtOutput))
    rethrow.

(** ** StakingContract *)

(** [this.apy = 12]. *)
Definition apy : Q := 12.

(** [stake(amount)]. *)
Definition stake (e : Env) (amount : Q) : M Transaction :=
  w <- get ;;
  throwIf (negb (connected w)) NotConnected ;;
  throwIf (JS.ltb (tCO2Balance (wallet (app w))) amount) InsufficientBalance ;;
  tryCatch
    (simulateTransaction ;;
     modify (updTCO2Balance (fun b => b - JS.parseFloat amount)) ;;
     modify (updStakedBalance (fun b => b + JS.parseFloat amount)) ;;
     modify (updTotalStaked (fun t => t + JS.parseFloat amount)) ;;
     tx <- addTransaction e
             {| req_body := StakeTx amount apy;
                req_status := "completed";
                req_hash := generateTxHash e |} ;;
     ret tx)
    rethrow.

(** [unstake(amount)]. *)
Definition unstake (e : Env) (amount : Q) : M Transaction :=
  w <- get ;;
  throwIf (negb (connected w)) NotConnected ;;
  throwIf (JS.ltb (stakedBalance (wallet (app w))) amount) InsufficientStaked ;;
  tryCatch
    (simulateTransaction ;;
     modify (updStakedBalance (fun b => b - JS.parseFloat amount)) ;;
     modify (updTCO2Balance (fun b => b + JS.parseFloat amount)) ;;
     modify (updTotalStaked (fun t => t - JS.parseFloat amount)) ;;
     tx <- addTransaction e
             {| req_body := UnstakeTx amount;
                req_status := "completed";
                req_hash := generateTxHash e |} ;;
     ret tx)
    rethrow.

(** [claimRewards()]. *)
Definition claimRewards (e : Env) : M Transaction :=
  w <- get ;;
  throwIf (negb (connected w)) NotConnected ;;
  let rewards := rewards (wallet (app w)) in
  throwIf (JS.leb rewards 0) NothingToClaim ;;
  tryCatch
    (simulateTransaction ;;
     modify (updTCO2Balance (fun b => b + JS.parseFloat rewards)) ;;
     modify (updRewards (fun _ => 0)) ;;
     tx <- addTransaction e
             {| req_body := ClaimRewardsTx rewards;
                req_status := "completed";
                req_hash := generateTxHash e |} ;;
     ret tx)
    rethrow.

(** ** The marketplace handler of [app.js] *)

(** The toasts [executeBuyTrade] can show. *)
Inductive Toast : Type :=
| WalletRequired
| InvalidAmount
| TradeSuccessful (bought : Q)
| TradeFailed (e : Error).

(** [executeBuyTrade()].  [amount] is [parseFloat] of the text of the input
    box: [None] stands for [NaN]; [!amount] holds for [NaN] and for [0]. *)
Definition executeBuyTrade (e : Env) (amount : option Q) (selectedSlippage : Q)
  : World -> Toast * World :=
  fun w =>
    if negb (connected w) then (WalletRequired, w)
    else
      match amount with
      | None => (InvalidAmount, w)
      | Some a =>
          if Qeq_bool a 0 || JS.leb a 0 then (InvalidAmount, w)
          else
            match swapUSDTForTCO2 e a selectedSlippage w with
            | (Returned result, w') => (TradeSuccessful (JS.toFixed2 (snd result)), w')
            | (Thrown err, w') => (TradeFailed err, w')
            end
      end.

(** ** Sequences of calls *)

(** One call of a core operation. *)
Inductive Op : Type :=
| OpMint (projectId : string) (amount : Q)
| OpBuy (usdtAmount slippage : Q)
| OpSell (tCO2Amount slippage : Q)
| OpStake (amount : Q)
| OpUnstake (amount : Q)
| OpClaimRewards
| OpBurn (amount : Q) (reason : string).

(** The call, its result dropped. *)
Definition perform (e : Env) (o : Op) : M unit :=
  match o with
  | OpMint p a => mint e p a ;; ret tt
  | OpBuy a sl => swapUSDTForTCO2 e a sl ;; ret tt
  | OpSell a sl => swapTCO2ForUSDT e a sl ;; ret tt
  | OpStake a => stake e a ;; ret tt
  | OpUnstake a => unstake e a ;; ret tt
  | OpClaimRewards => claimRewards e ;; ret tt
  | OpBurn a r => burn e a r ;; ret tt
  end.

(** The world a call leaves behind, whether it returns or throws. *)
Definition exec (e : Env) (o : Op) (w : World) : World := snd (perform e o w).




(** The invariant of the balance: no field is negative. *)
Definition nonNegative (w : World) : Prop :=
  0 <= liquidAmount w /\ 0 <= stakedAmount w /\ 0 <= pendingRewards w.

(** A connected wallet holding [l] liquid, [s] staked and [r] rewards, with
    an empty history. *)
Definition connectedWorld (l s r : Q) : World :=
  {| connected := true;
     walletAddress := Some "0xabc"%string;
     app := {| wallet := {| address := Some "0xabc"%string; balance := 0;
                            tCO2Balance := l; stakedBalance := s; rewards := r |};
               stats := {| totalMinted := 0; totalRetired := 0; totalStaked := 0 |};
               transactions := [];
               retirements := [] |} |}.

(** An environment whose upload resolves, and one whose upload rejects. *)
Definition envOk : Env :=
  {| nowISO := "2024-01-01T00:00:00.000Z"; txId := "tx-1-a"; txHash := "0x01";
     certificateId := "POR-1-A"; uploadResult := Some "Qm1"%string |}.

Definition envDown : Env :=
  {| nowISO := "2024-01-01T00:00:00.000Z"; txId := "tx-1-a"; txHash := "0x01";
     certificateId := "POR-1-A"; uploadResult := None |}.

(** A run that touches every operation, the upload failing in the last. *)
Definition sampleCalls : list (Env * Op) :=
  [ (envOk, OpMint "VCS-1" 50);
    (envOk, OpBuy 1000 (1 # 10));
    (envOk, OpStake 120);
    (envOk, OpUnstake 125);
    (envOk, OpClaimRewards);
    (envOk, OpSell 10 (1 # 2));
    (envOk, OpBurn 5 "offset");
    (envDown, OpBurn 5 "offset") ].

(** ** The ledger seen as a whole *)

(** [AppState.stats], read from the world. *)
Definition totalMintedOf (w : World) : Q := totalMinted (stats (app w)).
Definition totalRetiredOf (w : World) : Q := totalRetired (stats (app w)).
Definition totalStakedOf (w : World) : Q := totalStaked (stats (app w)).

(** The string a call of the contract layer stores in the field [type]. *)
Definition opType (o : Op) : string :=
  match o with
  | OpMint _ _ => "mint"
  | OpBuy _ _ => "buy"
  | OpSell _ _ => "sell"
  | OpStake _ => "stake"
  | OpUnstake _ => "unstake"
  | OpClaimRewards => "claim_rewards"
  | OpBurn _ _ => "retire"
  end.

(** The world after a whole sequence of calls. *)
Definition execAll (w : World) (calls : list (Env * Op)) : World :=
  fold_left (fun w' c => exec (fst c) (snd c) w') calls w.

(** The certificate ids the retire records of a history point to, in the
    order of the history. *)
Definition retireRefs (h : list Transaction) : list string :=
  flat_map (fun tx => match body tx with
                      | RetireTx _ c => [c]
                      | _ => []
                      end) h.

(** ** Arrays and [Math] *)

(** [Array.prototype.slice(start, end)] for integer arguments: a negative
    index counts from the end, both indices are clamped to the array. *)
Definition relativeIndex (len k : Z) : Z :=
  if (k <? 0)%Z then Z.max (len + k) 0 else Z.min k len.

Definition slice {A : Type} (l : list A) (start stop : Z) : list A :=
  let len := Z.of_nat (List.length l) in
  let k := relativeIndex len start in
  let final := relativeIndex len stop in
  firstn (Z.to_nat (final - k)) (skipn (Z.to_nat k) l).

(** [slice(start)]: the end is the length of the array. *)
Definition sliceFrom {A : Type} (l : list A) (start : Z) : list A :=
  slice l start (Z.of_nat (List.length l)).

Module JSMath.

(** [Math.max(x, y)] and [Math.min(x, y)]. *)
Definition max (x y : Q) : Q := if JS.ltb x y then y else x.
Definition min (x y : Q) : Q := if JS.ltb y x then y else x.

(** [Math.floor(x)]. *)
Definition floor (x : Q) : Z := Qfloor x.

End JSMath.

(** ** TransactionManager: reading the history *)

(** [getTransactions(filter)]. *)
Definition getTransactions (filter : string) (w : World) : list Transaction :=
  if String.eqb filter "all" then history w
  else List.filter (fun tx => String.eqb (type (body tx)) filter) (history w).

(** [getRecentTransactions(limit)]. *)
Definition getRecentTransactions (limit : Z) (w : World) : list Transaction :=
  slice (history w) 0 limit.

(** The trades [loadMarketData()] renders; the empty list is the
    "No trades yet" state. *)
Definition loadMarketData (w : World) : list Transaction :=
  let trades := (getTransactions "buy" w ++ getTransactions "sell" w)%list in
  slice trades 0 10.

(** ** MarketDataService: the price series *)

(** One entry of [priceHistory]; [date] is the text
    [date.toISOString().split('T')[0]]. *)
Record PricePoint : Type := mkPricePoint {
  date : string;
  price : Q;
  volume : Z
}.

(** The fields of a [MarketDataService]. *)
Record MarketDataService : Type := mkMarketDataService {
  currentPrice : Q;
  priceHistory : list PricePoint
}.

(** The loop of [generatePriceHistory()]: [steps] iterations are left, the
    loop variable [i] is [steps - 1], [k] counts the iterations done and
    [rnd k] is the pair of [Math.random()] values the iteration draws (for
    the price, then for the volume).  [calendar i] is the text the runtime
    prints for the clock's date moved [i] local days back ([setDate], then
    [toISOString]); which day that is depends on the time zone. *)
Fixpoint priceWalk (calendar : Z -> string) (rnd : nat -> Q * Q) (steps k : nat)
  (p : Q) : list PricePoint :=
  match steps with
  | O => []
  | S steps' =>
      let i := Z.of_nat steps' in
      let p := p + (fst (rnd k) - (1 # 2)) * (1 # 2) in
      let p := JSMath.max 14 (JSMath.min 18 p) in
      {| date := calendar i;
         price := JS.parseFloat (JS.toFixed2 p);
         volume := JSMath.floor (100000 + snd (rnd k) * 100000) |}
      :: priceWalk calendar rnd steps' (S k) p
  end.

(** [generatePriceHistory()]: 31 iterations ([i = 30 .. 0]) from 15.00. *)
Definition generatePriceHistory (calendar : Z -> string) (rnd : nat -> Q * Q)
  : list PricePoint :=
  priceWalk calendar rnd 31 0 15.

(** [new MarketDataService()]: [currentPrice] is 15.50 until
    [generatePriceHistory] sets it to the price of the last entry. *)
Definition newMarketDataService (calendar : Z -> string) (rnd : nat -> Q * Q)
  : MarketDataService :=
  let history := generatePriceHistory calendar rnd in
  {| currentPrice := last (map price history) (31 # 2);
     priceHistory := history |}.

(** [getCurrentPrice()]. *)
Definition getCurrentPrice (m : MarketDataService) : Q := currentPrice m.

(** [getPriceChange()]: the number 0, or the text of a number with two
    decimals, kept as the number. *)
Definition getPriceChange (m : MarketDataService) : Q :=
  if (List.length (priceHistory m) <? 2)%nat then 0
  else
    match nth_error (priceHistory m) (List.length (priceHistory m) - 2) with
    | Some entry =>
        let yesterday := price entry in
        let today := currentPrice m in
        JS.toFixed2 (((today - yesterday) / yesterday) * 100)
    | None => 0
    end.

(** [getPriceHistory(days)]: [priceHistory.slice(-days)]. *)
Definition getPriceHistory (days : Z) (m : MarketDataService)
  : list PricePoint :=
  sliceFrom (priceHistory m) (- days).

(** [get24hVolume()], [r] the value of [Math.random()]. *)
Definition get24hVolume (r : Q) : Z := (125000 + JSMath.floor (r * 50000))%Z.

(** ** WalletManager *)

(** [disconnect()]: the manager forgets the account and [AppState.wallet]
    is replaced by a fresh object of zeros; the statistics, the history and
    the certificates stay. *)
Definition disconnect (w : World) : World :=
  {| connected := false;
     walletAddress := None;
     app := {| wallet := {| address := None; balance := 0; tCO2Balance := 0;
                            stakedBalance := 0; rewards := 0 |};
               stats := stats (app w);
               transactions := transactions (app w);
               retirements := retirements (app w) |} |}.

(** What [updateBalances()] draws from outside: the MATIC balance as
    [parseFloat(formatEther(...)).toFixed(4)] renders it ([None] when
    [provider.getBalance] rejects) and three values of [Math.random()]. *)
Record BalanceDraws : Type := mkBalanceDraws {
  maticBalance : option Q;
  rndLiquid : Q;
  rndStaked : Q;
  rndRewards : Q
}.

(** [updateBalances()]: nothing when the wallet is not connected; a
    rejection of the provider is caught and logged before any field is
    written. *)
Definition updateBalances (d : BalanceDraws) (w : World) : World :=
  if negb (connected w) then w
  else
    match maticBalance d with
    | None => w
    | Some matic =>
        let tCO2Balance := inject_Z (JSMath.floor (rndLiquid d * 10000)) / 100 in
        let stakedBalance := inject_Z (JSMath.floor (rndStaked d * 5000)) / 100 in
        let rewards := JS.toFixed2 (stakedBalance * (12 # 100) * rndRewards d) in
        updWallet (fun a =>
          {| address := address a; balance := matic;
             tCO2Balance := tCO2Balance;
             stakedBalance := stakedBalance;
             rewards := rewards |}) w
    end.

(** [getShortAddress()]: the first six characters, three dots, and the
    characters from index 38 on; the empty string without an address.  An
    address is a string of ASCII characters, one per code unit. *)
Definition getShortAddress (w : World) : string :=
  match walletAddress w with
  | None => ""
  | Some a =>
      if String.eqb a "" then ""
      else (substring 0 6 a ++ "..." ++ substring 38 (String.length a - 38) a)%string
  end.

(** ** The other click handlers of [app.js] *)

(** The world a handler leaves behind; its toasts and its writes to the
    page are not part of the world.  An [amount] is [parseFloat] of the text
    of an input box, [None] standing for [NaN]. *)

(** [!amount || amount <= 0]. *)
Definition invalidAmount (amount : option Q) : bool :=
  match amount with
  | None => true
  | Some a => Qeq_bool a 0 || JS.leb a 0
  end.

(** The number a handler passes on once the guard has let it through. *)
Definition amountOf (amount : option Q) : Q :=
  match amount with
  | None => 0
  | Some a => a
  end.

(** [executeSellTrade()]. *)
Definition executeSellTrade (e : Env) (amount : option Q) (selectedSlippage : Q)
  : World -> World :=
  fun w =>
    if negb (connected w) then w
    else if invalidAmount amount then w
    else snd (swapTCO2ForUSDT e (amountOf amount) selectedSlippage w).

(** [executeStake()]. *)
Definition executeStake (e : Env) (amount : option Q) : World -> World :=
  fun w =>
    if negb (connected w) then w
    else if invalidAmount amount then w
    else snd (stake e (amountOf amount) w).

(** [executeUnstake()]. *)
Definition executeUnstake (e : Env) (amount : option Q) : World -> World :=
  fun w =>
    if negb (connected w) then w
    else if invalidAmount amount then w
    else snd (unstake e (amountOf amount) w).

(** [executeClaimRewards()]. *)
Definition executeClaimRewards (e : Env) : World -> World :=
  fun w =>
    if negb (connected w) then w
    else snd (claimRewards e w).

(** [executeRetirement()]; [confirmed] is the answer to the [confirm]
    dialog. *)
Definition executeRetirement (e : Env) (amount : option Q) (reason : string)
  (confirmed : bool) : World -> World :=
  fun w =>
    if negb (connected w) then w
    else if invalidAmount amount then w
    else if negb confirmed then w
    else snd (burn e (amountOf amount) reason w).

(** One click, with what the user typed. *)
Inductive Click : Type :=
| ClickBuy (amount : option Q) (selectedSlippage : Q)
| ClickSell (amount : option Q) (selectedSlippage : Q)
| ClickStake (amount : option Q)
| ClickUnstake (amount : option Q)
| ClickClaimRewards
| ClickRetire (amount : option Q) (reason : string) (confirmed : bool).

Definition handle (e : Env) (c : Click) (w : World) : World :=
  match c with
  | ClickBuy a sl => snd (executeBuyTrade e a sl w)
  | ClickSell a sl => executeSellTrade e a sl w
  | ClickStake a => executeStake e a w
  | ClickUnstake a => executeUnstake e a w
  | ClickClaimRewards => executeClaimRewards e w
  | ClickRetire a r ok => executeRetirement e a r ok w
  end.

(** The world after a whole session of clicks. *)
Definition handleAll (w : World) (clicks : list (Env * Click)) : World :=
  fold_left (fun w' c => handle (fst c) (snd c) w') clicks w.

(** ** Utility functions of [app.js] *)

(** What [formatTimestamp] renders. *)
Inductive Ago : Type :=
| JustNow
| MinutesAgo (minutes : Z)
| HoursAgo (hours : Z)
| DaysAgo (days : Z)
| LocaleDate (timestamp : Z).

(** [formatTimestamp(timestamp)], times in milliseconds, [now] the clock. *)
Definition formatTimestamp (now timestamp : Z) : Ago :=
  let diff := (now - timestamp)%Z in
  let minutes := (diff / 60000)%Z in
  let hours := (diff / 3600000)%Z in
  let days := (diff / 86400000)%Z in
  if (minutes <? 1)%Z then JustNow
  else if (minutes <? 60)%Z then MinutesAgo minutes
  else if (hours <? 24)%Z then HoursAgo hours
  else if (days <? 7)%Z then DaysAgo days
  else LocaleDate timestamp.

(** The amount a call carries, if it carries one. *)
Definition opAmount (o : Op) : option Q :=
  match o with
  | OpMint _ a => Some a
  | OpBuy a _ => Some a
  | OpSell a _ => Some a
  | OpStake a => Some a
  | OpUnstake a => Some a
  | OpClaimRewards => None
  | OpBurn a _ => Some a
  end.

(** A run of eleven buys followed by a sell. *)
Definition elevenBuysThenSell : list (Env * Op) :=
  (repeat (envOk, OpBuy 1000 (1 # 10)) 11 ++ [(envOk, OpSell 10 (1 # 10))])%list.

(** A session of clicks with bad and good inputs. *)
Definition sampleClicks : list (Env * Click) :=
  [ (envOk, ClickBuy (Some 1000) (1 # 10));
    (envOk, ClickStake (Some (-10)));
    (envOk, ClickStake (Some 120));
    (envOk, ClickUnstake (Some 500));
    (envOk, ClickSell None (1 # 10));
    (envDown, ClickRetire (Some 30) "offset" true);
    (envOk, ClickClaimRewards) ].

(** A calendar for examples: every date printed the same. *)
Definition sampleCalendar : Z -> string := fun _ => "2024-03-01"%string.

(** ** The arithmetic of the code on doubles *)

Module Binary64.

Local Open Scope float_scope.

(** The default of the parameter [fee]: the double nearest to 0.003. *)
Definition defaultFee : float := 0.003.

(** [calculateSwapOutput(inputAmount, inputReserve, outputReserve, fee)],
    every operation rounded to binary64. *)
Definition calculateSwapOutput (inputAmount inputReserve outputReserve fee : float)
  : float :=
  let inputAmountWithFee := inputAmount * (1 - fee) in
  let numerator := inputAmountWithFee * outputReserve in
  let denominator := inputReserve + inputAmountWithFee in
  numerator / denominator.



(** The number fields [stake] and [unstake] write: three of
    [AppState.wallet] and [stats.totalStaked]. *)
Record Balances : Type := mkBalances {
  tCO2Balance : float;
  stakedBalance : float;
  rewards : float;
  totalStaked : float
}.

(** [stake(amount)] on these fields; the record the call appends carries no
    arithmetic and is left to the ledger above. *)
Definition stake (connected : bool) (amount : float) (b : Balances)
  : outcome unit * Balances :=
  if negb connected then (Thrown NotConnected, b)
  else if tCO2Balance b <? amount then (Thrown InsufficientBalance, b)
  else
    (Returned tt,
     {| tCO2Balance := tCO2Balance b - amount;
        stakedBalance := stakedBalance b + amount;
        rewards := rewards b;
        totalStaked := totalStaked b + amount |}).

(** [unstake(amount)] on these fields. *)
Definition unstake (connected : bool) (amount : float) (b : Balances)
  : outcome unit * Balances :=
  if negb connected then (Thrown NotConnected, b)
  else if stakedBalance b <? amount then (Thrown InsufficientStaked, b)
  else
    (Returned tt,
     {| tCO2Balance := tCO2Balance b + amount;
        stakedBalance := stakedBalance b - amount;
        rewards := rewards b;
        totalStaked := totalStaked b - amount |}).

End Binary64.

(** * Properties *)

(** ** Comparisons *)

Lemma ltb_lt (x y : Q) : JS.ltb x y = true <-> x < y.
Proof.
  unfold JS.ltb. rewrite negb_true_iff. split; intro H.
  - apply Qnot_le_lt. intro Hle. apply Qle_bool_iff in Hle. congruence.
  - destruct (Qle_bool y x) eqn:E; [|reflexivity].
    apply Qle_bool_iff in E. lra.
Qed.

Lemma ltb_ge (x y : Q) : JS.ltb x y = false <-> y <= x.
Proof.
  unfold JS.ltb. rewrite negb_false_iff. apply Qle_bool_iff.
Qed.

Lemma leb_le (x y : Q) : JS.leb x y = true <-> x <= y.
Proof. apply Qle_bool_iff. Qed.

Lemma leb_gt (x y : Q) : JS.leb x y = false <-> y < x.
Proof.
  unfold JS.leb. split; intro H.
  - apply Qnot_le_lt. intro Hle. apply Qle_bool_iff in Hle. congruence.
  - destruct (Qle_bool x y) eqn:E; [|reflexivity].
    apply Qle_bool_iff in E. lra.
Qed.

(** ** The quote *)

Section Quote.

Variables inputReserve outputReserve fee : Q.
Hypothesis inputReserve_pos : 0 < inputReserve.
Hypothesis outputReserve_pos : 0 < outputReserve.
Hypothesis fee_lt_1 : fee < 1.

Lemma quote_pos (x : Q) :
  0 < x -> 0 < calculateSwapOutput x inputReserve outputReserve fee.
Proof.
  intro Hx. unfold calculateSwapOutput.
  assert (Hu : 0 < x * (1 - fee)) by nra.
  apply Qlt_shift_div_l; nra.
Qed.



End Quote.









(** ** Running the contract methods *)

Arguments calculateSwapOutput : simpl never.
Arguments JS.toFixed2 : simpl never.
Arguments JS.ltb : simpl never.
Arguments JS.leb : simpl never.

Ltac js_unfold :=
  unfold perform, exec, mint, burn, swapUSDTForTCO2, swapTCO2ForUSDT,
    stake, unstake, claimRewards, addTransaction, upload, simulateTransaction,
    generateTxHash, generateCertificateId, rethrow, tryCatch, throwIf,
    bind, get, modify, ret, throw, JS.parseFloat.

Ltac js_fields :=
  unfold liquidAmount, stakedAmount, pendingRewards, history, certificates,
    updTCO2Balance, updStakedBalance, updRewards, updTotalMinted,
    updTotalRetired, updTotalStaked, updWallet, updStats,
    unshiftTransaction, unshiftRetirement in *; cbn in *.

(** The [catch] clause changes nothing: it throws the error it caught. *)
Lemma tryCatch_rethrow {A : Type} (m : M A) (w : World) :
  tryCatch m rethrow w = m w.
Proof.
  unfold tryCatch, rethrow, throw. destruct (m w) as [[a|e] w']; reflexivity.
Qed.

(** *** What each method does when its checks pass *)




Lemma claimRewards_returns (e : Env) (w : World) :
  connected w = true -> 0 < pendingRewards w ->
  exists (tx : Transaction) (w' : World),
    claimRewards e w = (Returned tx, w')
    /\ body tx = ClaimRewardsTx (pendingRewards w)
    /\ connected w' = true
    /\ liquidAmount w' = liquidAmount w + pendingRewards w
    /\ stakedAmount w' = stakedAmount w
    /\ pendingRewards w' = 0
    /\ history w' = tx :: history w
    /\ certificates w' = certificates w.
Proof.
  intros Hc Hr. apply leb_gt in Hr. unfold pendingRewards in Hr.
  js_unfold. rewrite Hc. cbn. rewrite Hr. cbn.
  do 2 eexists. split; [reflexivity|]. js_fields. rewrite Hc. repeat split.
Qed.

Lemma swapUSDTForTCO2_returns (e : Env) (a sl : Q) (w : World) :
  connected w = true ->
  exists (tx : Transaction) (w' : World),
    swapUSDTForTCO2 e a sl w
    = (Returned (tx, calculateSwapOutput a 15500000 1000000 defaultFee), w')
    /\ body tx
       = BuyTx a (JS.toFixed2 (calculateSwapOutput a 15500000 1000000 defaultFee))
               (JS.toFixed2 (a / calculateSwapOutput a 15500000 1000000 defaultFee))
    /\ connected w' = true
    /\ liquidAmount w'
       = liquidAmount w + calculateSwapOutput a 15500000 1000000 defaultFee
    /\ stakedAmount w' = stakedAmount w
    /\ pendingRewards w' = pendingRewards w
    /\ history w' = tx :: history w
    /\ certificates w' = certificates w.
Proof.
  intro Hc. js_unfold. rewrite Hc. cbn.
  do 2 eexists. split; [reflexivity|]. js_fields. rewrite Hc. repeat split.
Qed.

Lemma swapTCO2ForUSDT_returns (e : Env) (a sl : Q) (w : World) :
  connected w = true -> a <= liquidAmount w ->
  exists (tx : Transaction) (w' : World),
    swapTCO2ForUSDT e a sl w
    = (Returned (tx, calculateSwapOutput a 1000000 15500000 defaultFee), w')
    /\ body tx
       = SellTx a (JS.toFixed2 (calculateSwapOutput a 1000000 15500000 defaultFee))
                (JS.toFixed2 (calculateSwapOutput a 1000000 15500000 defaultFee / a))
    /\ connected w' = true
    /\ liquidAmount w' = liquidAmount w - a
    /\ stakedAmount w' = stakedAmount w
    /\ pendingRewards w' = pendingRewards w
    /\ history w' = tx :: history w
    /\ certificates w' = certificates w.
Proof.
  intros Hc Ha. apply ltb_ge in Ha. unfold liquidAmount in Ha.
  js_unfold. rewrite Hc. cbn. rewrite Ha. cbn.
  do 2 eexists. split; [reflexivity|]. js_fields. rewrite Hc. repeat split.
Qed.


Lemma burn_upload_rejected (e : Env) (a : Q) (r : string) (w : World) :
  connected w = true -> a <= liquidAmount w -> uploadResult e = None ->
  exists w' : World,
    burn e a r w = (Thrown StorageUnavailable, w')
    /\ connected w' = true
    /\ liquidAmount w' = liquidAmount w - a
    /\ stakedAmount w' = stakedAmount w
    /\ pendingRewards w' = pendingRewards w
    /\ history w' = history w
    /\ certificates w' = certificates w.
Proof.
  intros Hc Ha Hu. apply ltb_ge in Ha. unfold liquidAmount in Ha.
  js_unfold. rewrite Hc. cbn. rewrite Ha. cbn. rewrite Hu. cbn.
  eexists. split; [reflexivity|]. js_fields. rewrite Hc. repeat split.
Qed.

(** *** What each method does when a check fails *)

Lemma snd_drop_result {A : Type} (m : M A) (w : World) :
  snd (bind m (fun _ => ret tt) w) = snd (m w).
Proof.
  unfold bind, ret. destruct (m w) as [[a|e] w']; reflexivity.
Qed.




Lemma claimRewards_nothing (e : Env) (w : World) :
  connected w = true -> pendingRewards w <= 0 ->
  claimRewards e w = (Thrown NothingToClaim, w).
Proof.
  intros Hc Hr. apply leb_le in Hr. unfold pendingRewards in Hr.
  js_unfold. rewrite Hc. cbn. rewrite Hr. reflexivity.
Qed.

(** ** The claims about the ledger *)









(** C2 as stated fails: with the store down, [burn(10)] on a balance of 100
    throws, and the balance it leaves is 90. *)
Lemma burn_upload_failure_counterexample :
  uploadResult envDown = None
  /\ fst (burn envDown 10 "offset" (connectedWorld 100 5 1))
     = Thrown StorageUnavailable
  /\ liquidAmount (connectedWorld 100 5 1) == 100
  /\ liquidAmount (snd (burn envDown 10 "offset" (connectedWorld 100 5 1))) == 90
  /\ ~ liquidAmount (snd (burn envDown 10 "offset" (connectedWorld 100 5 1)))
       == liquidAmount (connectedWorld 100 5 1).
Proof.
  repeat split; try reflexivity. vm_compute. discriminate.
Qed.

(** C2, amended.  When the upload of the certificate is rejected during an
    otherwise valid [burn], the call fails with [StorageUnavailable], no
    transaction record is appended and no certificate is stored; the liquid
    balance has already been debited by the amount, and the staked balance
    and the rewards are as before. *)
Theorem burn_upload_failure_debits_without_record :
  forall (e : Env) (w : World) (amount : Q) (reason : string),
    connected w = true -> amount <= liquidAmount w -> uploadResult e = None ->
    exists w' : World,
      burn e amount reason w = (Thrown StorageUnavailable, w')
      /\ history w' = history w
      /\ certificates w' = certificates w
      /\ liquidAmount w' == liquidAmount w - amount
      /\ stakedAmount w' == stakedAmount w
      /\ pendingRewards w' == pendingRewards w.
Proof.
  intros e w amount reason Hc Ha Hu.
  destruct (burn_upload_rejected e amount reason w Hc Ha Hu)
    as (w' & E & _ & L & S & R & T & C).
  exists w'. rewrite L, S, R. repeat split; try assumption; reflexivity.
Qed.

Lemma burn_upload_failure_debits_without_record_witness :
  exists w' : World,
    burn envDown 10 "offset" (connectedWorld 100 5 1)
    = (Thrown StorageUnavailable, w')
    /\ history w' = history (connectedWorld 100 5 1)
    /\ certificates w' = certificates (connectedWorld 100 5 1)
    /\ liquidAmount w' == liquidAmount (connectedWorld 100 5 1) - 10
    /\ stakedAmount w' == stakedAmount (connectedWorld 100 5 1)
    /\ pendingRewards w' == pendingRewards (connectedWorld 100 5 1).
Proof.
  apply burn_upload_failure_debits_without_record.
  - reflexivity.
  - vm_compute. discriminate.
  - reflexivity.
Defined.



(** C8 as stated fails: [swapUSDTForTCO2(-1000)] by a connected actor
    returns, appends a buy record and changes the balance. *)
Lemma swapUSDTForTCO2_nonpositive_counterexample :
  connected (connectedWorld 100 5 1) = true
  /\ -1000 <= 0
  /\ exists (tx : Transaction) (out : Q) (w' : World),
       swapUSDTForTCO2 envOk (-1000) (1 # 10) (connectedWorld 100 5 1)
       = (Returned (tx, out), w')
       /\ history (connectedWorld 100 5 1) = []
       /\ history w' = [tx]
       /\ type (body tx) = "buy"%string
       /\ liquidAmount w' < liquidAmount (connectedWorld 100 5 1).
Proof.
  split; [reflexivity|]. split; [discriminate|].
  do 3 eexists. split; [reflexivity|]. repeat split.
Qed.

(** C8, amended.  For a connected actor and [quoteAmount <= 0], the amount
    is rejected by the click handler [executeBuyTrade], which shows
    "Invalid Amount" and leaves the world as it was (no balance change, no
    record); [swapUSDTForTCO2] itself does not check the amount: called with
    it, it returns and appends a buy record. *)
Theorem nonpositive_buy_rejected_by_handler :
  forall (e : Env) (w : World) (quoteAmount maxSlippagePercent : Q),
    connected w = true -> quoteAmount <= 0 ->
    executeBuyTrade e (Some quoteAmount) maxSlippagePercent w = (InvalidAmount, w)
    /\ exists (tx : Transaction) (out : Q) (w' : World),
         swapUSDTForTCO2 e quoteAmount maxSlippagePercent w
         = (Returned (tx, out), w')
         /\ history w' = tx :: history w
         /\ type (body tx) = "buy"%string.
Proof.
  intros e w a sl Hc Ha. split.
  - unfold executeBuyTrade. rewrite Hc. cbn.
    apply leb_le in Ha. rewrite Ha, orb_true_r. reflexivity.
  - destruct (swapUSDTForTCO2_returns e a sl w Hc)
      as (tx & w' & E & B & _ & _ & _ & _ & T & _).
    exists tx, (calculateSwapOutput a 15500000 1000000 defaultFee), w'.
    rewrite B. repeat split; assumption.
Qed.

Lemma nonpositive_buy_rejected_by_handler_witness :
  executeBuyTrade envOk (Some (-1000)) (1 # 10) (connectedWorld 100 5 1)
  = (InvalidAmount, connectedWorld 100 5 1).
Proof.
  apply (nonpositive_buy_rejected_by_handler envOk (connectedWorld 100 5 1)
           (-1000) (1 # 10)).
  - reflexivity.
  - discriminate.
Defined.

(** C9.  For a connected actor, a positive input amount (not above
    [liquidAmount] for a sell) and every [maxSlippagePercent >= 0], buy and
    sell return the output of [calculateSwapOutput] on the pool reserves and
    settle at it; any other slippage gives the same result and the same
    world, so the tolerance neither aborts the swap nor changes the output. *)
Theorem slippage_is_never_enforced :
  forall (e : Env) (w : World) (amount maxSlippagePercent : Q),
    connected w = true -> 0 < amount -> 0 <= maxSlippagePercent ->
    (exists (tx : Transaction) (w' : World),
        swapUSDTForTCO2 e amount maxSlippagePercent w
        = (Returned (tx, calculateSwapOutput amount (USDT getPoolReserves)
                           (tCO2 getPoolReserves) defaultFee), w')
        /\ liquidAmount w'
           == liquidAmount w
              + calculateSwapOutput amount (USDT getPoolReserves)
                  (tCO2 getPoolReserves) defaultFee
        /\ history w' = tx :: history w
        /\ body tx
           = BuyTx amount
               (JS.toFixed2 (calculateSwapOutput amount (USDT getPoolReserves)
                               (tCO2 getPoolReserves) defaultFee))
               (JS.toFixed2 (amount / calculateSwapOutput amount
                               (USDT getPoolReserves) (tCO2 getPoolReserves)
                               defaultFee)))
    /\ (amount <= liquidAmount w ->
        exists (tx : Transaction) (w' : World),
          swapTCO2ForUSDT e amount maxSlippagePercent w
          = (Returned (tx, calculateSwapOutput amount (tCO2 getPoolReserves)
                             (USDT getPoolReserves) defaultFee), w')
          /\ liquidAmount w' == liquidAmount w - amount
          /\ history w' = tx :: history w
          /\ body tx
             = SellTx amount
                 (JS.toFixed2 (calculateSwapOutput amount (tCO2 getPoolReserves)
                                 (USDT getPoolReserves) defaultFee))
                 (JS.toFixed2 (calculateSwapOutput amount (tCO2 getPoolReserves)
                                 (USDT getPoolReserves) defaultFee / amount)))
    /\ (forall other : Q,
           swapUSDTForTCO2 e amount other w
           = swapUSDTForTCO2 e amount maxSlippagePercent w
           /\ swapTCO2ForUSDT e amount other w
              = swapTCO2ForUSDT e amount maxSlippagePercent w).
Proof.
  intros e w a sl Hc Ha Hsl. split; [|split].
  - destruct (swapUSDTForTCO2_returns e a sl w Hc)
      as (tx & w' & E & B & _ & L & _ & _ & T & _).
    exists tx, w'. rewrite L. cbn [USDT tCO2 getPoolReserves].
    repeat split; try assumption; reflexivity.
  - intro Hle.
    destruct (swapTCO2ForUSDT_returns e a sl w Hc Hle)
      as (tx & w' & E & B & _ & L & _ & _ & T & _).
    exists tx, w'. rewrite L. cbn [USDT tCO2 getPoolReserves].
    repeat split; try assumption; reflexivity.
  - intro other. split; reflexivity.
Qed.

Lemma slippage_is_never_enforced_witness :
  exists (tx : Transaction) (w' : World),
    swapUSDTForTCO2 envOk 1000 0 (connectedWorld 100 5 1)
    = (Returned (tx, calculateSwapOutput 1000 15500000 1000000 defaultFee), w')
    /\ liquidAmount w'
       == 100 + calculateSwapOutput 1000 15500000 1000000 defaultFee.
Proof.
  destruct (slippage_is_never_enforced envOk (connectedWorld 100 5 1) 1000 0)
    as ((tx & w' & E & L & _) & _); [reflexivity | reflexivity | discriminate |].
  exists tx, w'. split; [exact E | exact L].
Defined.






(** * Further properties of the pricing function *)










(** * Further properties of the ledger *)

Ltac js_cases w e :=
  js_unfold; destruct (connected w) eqn:?; cbn;
  repeat match goal with
         | |- context [JS.ltb ?a ?b] => destruct (JS.ltb a b) eqn:?; cbn
         | |- context [JS.leb ?a ?b] => destruct (JS.leb a b) eqn:?; cbn
         | |- context [uploadResult e] => destruct (uploadResult e) eqn:?; cbn
         end.

Lemma perform_cases (e : Env) (o : Op) (w : World) :
  (exists (w' : World) (tx : Transaction),
      perform e o w = (Returned tt, w')
      /\ history w' = tx :: history w
      /\ type (body tx) = opType o
      /\ status tx = "completed"%string
      /\ id tx = txId e /\ timestamp tx = nowISO e /\ hash tx = txHash e)
  \/ (exists (err : Error) (w' : World),
         perform e o w = (Thrown err, w') /\ history w' = history w).
Proof.
  destruct o; unfold perform; js_cases w e;
    solve [ left; do 2 eexists; split; [reflexivity|]; repeat split
          | right; do 2 eexists; split; reflexivity ].
Qed.

(** X5.  A call of the contract layer that returns has put exactly one
    record in front of the history, of the call's own type, with status
    completed and the id and timestamp drawn for the call; a call that
    throws, the rejected upload included, has left the history as it was. *)
Theorem perform_appends_one_record_or_none :
  forall (e : Env) (o : Op) (w : World),
    (exists (w' : World) (tx : Transaction),
        perform e o w = (Returned tt, w')
        /\ history w' = tx :: history w
        /\ type (body tx) = opType o
        /\ status tx = "completed"%string
        /\ id tx = txId e /\ timestamp tx = nowISO e /\ hash tx = txHash e)
    \/ (exists (err : Error) (w' : World),
           perform e o w = (Thrown err, w') /\ history w' = history w).
Proof.
  intros e o w. apply perform_cases.
Qed.

Lemma history_exec_step (e : Env) (o : Op) (w : World) :
  history (exec e o w) = history w
  \/ exists tx : Transaction, history (exec e o w) = tx :: history w.
Proof.
  unfold exec.
  destruct (perform_cases e o w)
    as [(w' & tx & E & H & _) | (err & w' & E & H)]; rewrite E; cbn.
  - right. exists tx. exact H.
  - left. exact H.
Qed.

(** X6.  The history is append-only: after any sequence of calls, with any
    arguments, the history is the old history with new records in front of
    it, at most one per call. *)
Theorem history_is_append_only :
  forall (calls : list (Env * Op)) (w : World),
    exists newer : list Transaction,
      history (execAll w calls) = newer ++ history w
      /\ (List.length newer <= List.length calls)%nat.
Proof.
  unfold execAll.
  induction calls as [|[e o] rest IH]; intro w; cbn.
  - exists []. split; [reflexivity | apply Nat.le_refl].
  - destruct (IH (exec e o w)) as (newer & E & Hlen). rewrite E.
    destruct (history_exec_step e o w) as [H | (tx & H)]; rewrite H.
    + exists newer. split; [reflexivity | lia].
    + exists (newer ++ [tx]). rewrite <- app_assoc. split; [reflexivity|].
      rewrite length_app. cbn. lia.
Qed.

(** X7.  Every retire record points to a stored certificate and every
    stored certificate has its retire record and a content address: if the
    certificate ids of the retire records are the ids of the stored
    certificates, in order, and every stored certificate has an [ipfsHash],
    then the same holds after any call. *)
Theorem retire_records_match_certificates :
  forall (e : Env) (o : Op) (w : World),
    retireRefs (history w) = map cert_id (certificates w) ->
    Forall (fun c => ipfsHash c <> None) (certificates w) ->
    retireRefs (history (exec e o w)) = map cert_id (certificates (exec e o w))
    /\ Forall (fun c => ipfsHash c <> None) (certificates (exec e o w)).
Proof.
  intros e o w Hrefs Hcid. unfold exec.
  destruct o; unfold perform; js_cases w e; js_fields;
    try (split; assumption).
  split.
  - f_equal. exact Hrefs.
  - constructor; [discriminate | exact Hcid].
Qed.

Lemma retire_records_match_certificates_witness :
  retireRefs (history (exec envOk (OpBurn 10 "offset") (connectedWorld 100 5 1)))
  = map cert_id
      (certificates (exec envOk (OpBurn 10 "offset") (connectedWorld 100 5 1)))
  /\ Forall (fun c => ipfsHash c <> None)
       (certificates (exec envOk (OpBurn 10 "offset") (connectedWorld 100 5 1))).
Proof.
  apply retire_records_match_certificates; [reflexivity | constructor].
Defined.

(** X8.  Which fields a call can write, whatever its arguments and its
    outcome.  No call writes the wallet manager, the address or the MATIC
    balance.  Only [stake] and [unstake] write [stakedBalance] and
    [stats.totalStaked]; only [claimRewards] writes the rewards; only [burn]
    writes [stats.totalRetired] and the certificates; only [mint] writes
    [stats.totalMinted]. *)
Theorem calls_write_only_their_fields :
  forall (e : Env) (o : Op) (w : World),
    (connected (exec e o w) = connected w
     /\ walletAddress (exec e o w) = walletAddress w
     /\ address (wallet (app (exec e o w))) = address (wallet (app w))
     /\ balance (wallet (app (exec e o w))) = balance (wallet (app w)))
    /\ ((forall a : Q, o <> OpStake a) -> (forall a : Q, o <> OpUnstake a) ->
        stakedAmount (exec e o w) = stakedAmount w
        /\ totalStakedOf (exec e o w) = totalStakedOf w)
    /\ (o <> OpClaimRewards -> pendingRewards (exec e o w) = pendingRewards w)
    /\ ((forall (a : Q) (r : string), o <> OpBurn a r) ->
        totalRetiredOf (exec e o w) = totalRetiredOf w
        /\ certificates (exec e o w) = certificates w)
    /\ ((forall (p : string) (a : Q), o <> OpMint p a) ->
        totalMintedOf (exec e o w) = totalMintedOf w).
Proof.
  intros e o w.
  unfold exec, totalStakedOf, totalRetiredOf, totalMintedOf.
  destruct o as [p a | a sl | a sl | a | a | | a r]; unfold perform;
    js_cases w e; js_fields;
    repeat match goal with
           | |- _ /\ _ => split
           | |- _ -> _ => intro
           end;
    try reflexivity; try assumption;
    exfalso;
    match goal with
    | H : forall _ : Q, _ <> _ |- _ => solve [eapply H; reflexivity]
    | H : forall (_ : Q) (_ : string), _ <> _ |- _ => solve [eapply H; reflexivity]
    | H : forall (_ : string) (_ : Q), _ <> _ |- _ => solve [eapply H; reflexivity]
    | H : _ <> _ |- _ => solve [apply H; reflexivity]
    end.
Qed.

Lemma calls_write_only_their_fields_witness :
  stakedAmount (exec envOk (OpBuy 1000 (1 # 10)) (connectedWorld 100 5 1))
  = stakedAmount (connectedWorld 100 5 1)
  /\ totalStakedOf (exec envOk (OpBuy 1000 (1 # 10)) (connectedWorld 100 5 1))
     = totalStakedOf (connectedWorld 100 5 1).
Proof.
  apply (proj1 (proj2 (calls_write_only_their_fields envOk
                         (OpBuy 1000 (1 # 10)) (connectedWorld 100 5 1))));
    intros a; discriminate.
Defined.

(** X11.  Rewards are paid once: after a claim that returned, the pending
    rewards are 0, the liquid balance has grown by the rewards claimed, and
    a second claim fails with [NothingToClaim] without changing anything. *)
Theorem claimRewards_pays_once :
  forall (e1 e2 : Env) (w : World),
    connected w = true -> 0 < pendingRewards w ->
    exists (tx : Transaction) (w1 : World),
      claimRewards e1 w = (Returned tx, w1)
      /\ body tx = ClaimRewardsTx (pendingRewards w)
      /\ liquidAmount w1 == liquidAmount w + pendingRewards w
      /\ pendingRewards w1 == 0
      /\ claimRewards e2 w1 = (Thrown NothingToClaim, w1).
Proof.
  intros e1 e2 w Hc Hr.
  destruct (claimRewards_returns e1 w Hc Hr)
    as (tx & w1 & E & B & C1 & L & _ & R & _).
  exists tx, w1. rewrite L, R.
  repeat split; try assumption; try reflexivity.
  apply claimRewards_nothing; [exact C1 | rewrite R; lra].
Qed.

Lemma claimRewards_pays_once_witness :
  exists (tx : Transaction) (w1 : World),
    claimRewards envOk (connectedWorld 100 5 1) = (Returned tx, w1)
    /\ body tx = ClaimRewardsTx (pendingRewards (connectedWorld 100 5 1))
    /\ liquidAmount w1
       == liquidAmount (connectedWorld 100 5 1)
          + pendingRewards (connectedWorld 100 5 1)
    /\ pendingRewards w1 == 0
    /\ claimRewards envOk w1 = (Thrown NothingToClaim, w1).
Proof.
  apply claimRewards_pays_once; reflexivity.
Defined.

(** * Reading the history *)

Lemma opType_not_all (o : Op) : String.eqb (opType o) "all" = false.
Proof. destruct o; reflexivity. Qed.

Lemma firstn_clamped {A : Type} (l : list A) (n : Z) :
  firstn (Z.to_nat (Z.min n (Z.of_nat (List.length l)))) l = firstn (Z.to_nat n) l.
Proof.
  destruct (Z.le_ge_cases n (Z.of_nat (List.length l))) as [H | H].
  - rewrite Z.min_l by exact H. reflexivity.
  - rewrite Z.min_r by lia. rewrite Nat2Z.id.
    rewrite firstn_all. symmetry. apply firstn_all2. lia.
Qed.

Lemma slice_from_start {A : Type} (l : list A) (n : Z) :
  (0 <= n)%Z -> slice l 0 n = firstn (Z.to_nat n) l.
Proof.
  intro Hn. unfold slice, relativeIndex.
  assert (E0 : (0 <? 0)%Z = false) by reflexivity. rewrite E0.
  assert (En : (n <? 0)%Z = false) by (apply Z.ltb_ge; exact Hn). rewrite En.
  rewrite (Z.min_l 0) by lia. rewrite Z.sub_0_r. cbn [Z.to_nat skipn].
  apply firstn_clamped.
Qed.

Lemma slice_drop_last {A : Type} (l : list A) (n : Z) :
  (n < 0)%Z -> slice l 0 n = firstn (List.length l - Z.to_nat (- n)) l.
Proof.
  intro Hn. unfold slice, relativeIndex.
  assert (E0 : (0 <? 0)%Z = false) by reflexivity. rewrite E0.
  assert (En : (n <? 0)%Z = true) by (apply Z.ltb_lt; exact Hn). rewrite En.
  rewrite (Z.min_l 0) by lia. rewrite Z.sub_0_r. cbn [Z.to_nat skipn].
  f_equal. lia.
Qed.

(** X12.  A call that returned is seen first in the view of everything and
    first in the view of its own type, and in no other typed view: the
    other views are what they were before the call. *)
Theorem getTransactions_after_call :
  forall (e : Env) (o : Op) (w w' : World),
    perform e o w = (Returned tt, w') ->
    exists tx : Transaction,
      type (body tx) = opType o
      /\ getTransactions "all" w' = tx :: getTransactions "all" w
      /\ getTransactions (opType o) w' = tx :: getTransactions (opType o) w
      /\ forall filter : string,
           filter <> "all"%string -> filter <> opType o ->
           getTransactions filter w' = getTransactions filter w.
Proof.
  intros e o w w' Hrun.
  destruct (perform_cases e o w)
    as [(w1 & tx & E & H & T & _) | (err & w1 & E & _)];
    rewrite E in Hrun; inversion Hrun; subst w1.
  exists tx. split; [exact T|]. unfold getTransactions.
  split; [cbn; exact H|]. split.
  - rewrite opType_not_all, H. cbn. rewrite T, String.eqb_refl. reflexivity.
  - intros f Hall Hf.
    apply String.eqb_neq in Hall. rewrite Hall, H. cbn. rewrite T.
    assert (Hne : String.eqb (opType o) f = false)
      by (apply String.eqb_neq; congruence).
    rewrite Hne. reflexivity.
Qed.

Lemma getTransactions_after_call_witness :
  exists tx : Transaction,
    type (body tx) = "stake"%string
    /\ getTransactions "all" (exec envOk (OpStake 40) (connectedWorld 100 5 1))
       = tx :: getTransactions "all" (connectedWorld 100 5 1).
Proof.
  destruct (getTransactions_after_call envOk (OpStake 40)
              (connectedWorld 100 5 1)
              (exec envOk (OpStake 40) (connectedWorld 100 5 1)) eq_refl)
    as (tx & T & A & _).
  exists tx. split; [exact T | exact A].
Defined.

(** X13.  [getRecentTransactions(limit)] with [limit >= 0] is the first
    [limit] records of the history, all of it when there are fewer; with a
    negative [limit] it is the history without its [-limit] oldest
    records. *)
Theorem getRecentTransactions_is_a_prefix :
  forall (limit : Z) (w : World),
    ((0 <= limit)%Z ->
     getRecentTransactions limit w = firstn (Z.to_nat limit) (history w)
     /\ List.length (getRecentTransactions limit w)
        = Nat.min (Z.to_nat limit) (List.length (history w)))
    /\ ((limit < 0)%Z ->
        getRecentTransactions limit w
        = firstn (List.length (history w) - Z.to_nat (- limit)) (history w)).
Proof.
  intros limit w. unfold getRecentTransactions. split.
  - intro H. rewrite slice_from_start by exact H.
    split; [reflexivity | apply length_firstn].
  - intro H. apply slice_drop_last. exact H.
Qed.

Lemma getRecentTransactions_is_a_prefix_witness :
  getRecentTransactions 5 (execAll (connectedWorld 100 5 1) sampleCalls)
  = firstn 5 (history (execAll (connectedWorld 100 5 1) sampleCalls)).
Proof.
  apply (proj1 (getRecentTransactions_is_a_prefix 5
                  (execAll (connectedWorld 100 5 1) sampleCalls))).
  discriminate.
Defined.

(** X14.  The trade list of the marketplace page shows at most ten records,
    all buys or sells, every buy before every sell; once the history holds
    ten buys, no sell is shown, however recent. *)
Theorem loadMarketData_buys_first :
  forall w : World,
    loadMarketData w
    = firstn 10 (getTransactions "buy" w ++ getTransactions "sell" w)
    /\ (List.length (loadMarketData w) <= 10)%nat
    /\ ((10 <= List.length (getTransactions "buy" w))%nat ->
        loadMarketData w = firstn 10 (getTransactions "buy" w)
        /\ Forall (fun tx => type (body tx) = "buy"%string) (loadMarketData w)).
Proof.
  intro w. unfold loadMarketData.
  rewrite slice_from_start by discriminate.
  change (Z.to_nat 10) with 10%nat.
  split; [reflexivity|]. split; [apply firstn_le_length|].
  intro Hlen. rewrite firstn_app.
  replace (10 - List.length (getTransactions "buy" w))%nat with 0%nat by lia.
  cbn [firstn]. rewrite app_nil_r. split; [reflexivity|].
  apply Forall_forall. intros tx Hin.
  assert (Hin' : In tx (getTransactions "buy" w)).
  { rewrite <- (firstn_skipn 10 (getTransactions "buy" w)).
    apply in_or_app. left. exact Hin. }
  clear Hin. rename Hin' into Hin.
  unfold getTransactions in Hin. cbn in Hin.
  apply filter_In in Hin. destruct Hin as [_ Hty].
  apply String.eqb_eq in Hty. exact Hty.
Qed.

(** * The price series *)

(** ** Rounding to two decimals *)

Lemma Qfloor_between (m n : Z) (y : Q) :
  inject_Z m <= y -> y < inject_Z n + 1 -> (m <= Qfloor y <= n)%Z.
Proof.
  intros Hm Hn.
  pose proof (Qfloor_le y) as Hlo. pose proof (Qlt_floor y) as Hhi.
  split.
  - assert (H : inject_Z m < inject_Z (Qfloor y + 1)) by lra.
    rewrite <- Zlt_Qlt in H. lia.
  - assert (H : inject_Z (Qfloor y) < inject_Z (n + 1)).
    { rewrite inject_Z_plus. change (inject_Z 1) with 1. lra. }
    rewrite <- Zlt_Qlt in H. lia.
Qed.

Lemma hundredths_times_100 (z : Z) : (z # 100) * 100 == inject_Z z.
Proof. unfold Qeq. cbn. lia. Qed.

Lemma toFixed2_of_nonneg (x : Q) :
  0 <= x -> JS.toFixed2 x = Qfloor (x * 100 + (1 # 2)) # 100.
Proof.
  intro H. unfold JS.toFixed2. apply ltb_ge in H. rewrite H. reflexivity.
Qed.

Lemma toFixed2_of_neg (x : Q) :
  x < 0 -> JS.toFixed2 x = - (Qfloor ((- x) * 100 + (1 # 2)) # 100).
Proof.
  intro H. unfold JS.toFixed2. apply ltb_lt in H. rewrite H. reflexivity.
Qed.

Lemma toFixed2_between (m n : Z) (x : Q) :
  0 <= x -> inject_Z m <= x * 100 -> x * 100 <= inject_Z n ->
  inject_Z m <= JS.toFixed2 x * 100 /\ JS.toFixed2 x * 100 <= inject_Z n.
Proof.
  intros H0 Hm Hn. rewrite toFixed2_of_nonneg by exact H0.
  rewrite hundredths_times_100.
  destruct (Qfloor_between m n (x * 100 + (1 # 2))) as [A B]; [lra | lra |].
  split; rewrite <- Zle_Qle; assumption.
Qed.

Lemma toFixed2_error (x : Q) :
  0 <= x -> - (1 # 200) <= JS.toFixed2 x - x /\ JS.toFixed2 x - x <= 1 # 200.
Proof.
  intro H0. rewrite toFixed2_of_nonneg by exact H0.
  pose proof (Qfloor_le (x * 100 + (1 # 2))) as Hlo.
  pose proof (Qlt_floor (x * 100 + (1 # 2))) as Hhi.
  rewrite inject_Z_plus in Hhi. change (inject_Z 1) with 1 in Hhi.
  pose proof (hundredths_times_100 (Qfloor (x * 100 + (1 # 2)))) as E.
  set (f := Qfloor (x * 100 + (1 # 2))) in *.
  set (t := f # 100) in *. lra.
Qed.

Lemma toFixed2_symmetric_bound (n : Z) (x : Q) :
  (0 <= n)%Z -> - inject_Z n <= x * 100 -> x * 100 <= inject_Z n ->
  - inject_Z n <= JS.toFixed2 x * 100 /\ JS.toFixed2 x * 100 <= inject_Z n.
Proof.
  intros Hn Hlo Hhi.
  assert (Hn' : 0 <= inject_Z n) by (change 0 with (inject_Z 0); rewrite <- Zle_Qle; exact Hn).
  destruct (Qlt_le_dec x 0) as [Hneg | Hpos].
  - rewrite toFixed2_of_neg by exact Hneg.
    destruct (Qfloor_between 0 n ((- x) * 100 + (1 # 2))) as [A B].
    + change (inject_Z 0) with 0. lra.
    + lra.
    + rewrite Zle_Qle in A, B. change (inject_Z 0) with 0 in A.
      pose proof (hundredths_times_100 (Qfloor ((- x) * 100 + (1 # 2)))) as E.
      set (f := Qfloor ((- x) * 100 + (1 # 2))) in *.
      set (t := f # 100) in *. lra.
  - destruct (toFixed2_between 0 n x Hpos) as [A B].
    + change (inject_Z 0) with 0. lra.
    + exact Hhi.
    + change (inject_Z 0) with 0 in A. lra.
Qed.

(** ** The random walk *)

Lemma clamp_range (p : Q) :
  14 <= JSMath.max 14 (JSMath.min 18 p) /\ JSMath.max 14 (JSMath.min 18 p) <= 18.
Proof.
  unfold JSMath.max, JSMath.min.
  destruct (JS.ltb p 18) eqn:E1.
  - apply ltb_lt in E1.
    destruct (JS.ltb 14 p) eqn:E2; [apply ltb_lt in E2 | apply ltb_ge in E2]; lra.
  - apply ltb_ge in E1.
    destruct (JS.ltb 14 18) eqn:E2; [|discriminate]. lra.
Qed.

Lemma clamp_step (p d : Q) :
  14 <= p -> p <= 18 -> - (1 # 4) <= d -> d <= 1 # 4 ->
  - (1 # 4) <= JSMath.max 14 (JSMath.min 18 (p + d)) - p
  /\ JSMath.max 14 (JSMath.min 18 (p + d)) - p <= 1 # 4.
Proof.
  intros Hlo Hhi Hd1 Hd2. unfold JSMath.max, JSMath.min.
  destruct (JS.ltb (p + d) 18) eqn:E1.
  - apply ltb_lt in E1.
    destruct (JS.ltb 14 (p + d)) eqn:E2;
      [apply ltb_lt in E2 | apply ltb_ge in E2]; lra.
  - apply ltb_ge in E1.
    destruct (JS.ltb 14 18) eqn:E2; [|discriminate]. lra.
Qed.

Section Walk.

Variable calendar : Z -> string.
Variable rnd : nat -> Q * Q.

Lemma priceWalk_length (steps k : nat) (p : Q) :
  List.length (priceWalk calendar rnd steps k p) = steps.
Proof.
  revert k p. induction steps as [|n IH]; intros k p; cbn; [reflexivity|].
  rewrite IH. reflexivity.
Qed.

Lemma priceWalk_range (steps k : nat) (p : Q) :
  Forall (fun pt => 14 <= price pt /\ price pt <= 18)
         (priceWalk calendar rnd steps k p).
Proof.
  revert k p. induction steps as [|n IH]; intros k p; cbn [priceWalk].
  - constructor.
  - constructor; [|apply IH].
    cbn [price]. unfold JS.parseFloat.
    set (c := JSMath.max 14 (JSMath.min 18 (p + (fst (rnd k) - (1 # 2)) * (1 # 2)))).
    destruct (clamp_range (p + (fst (rnd k) - (1 # 2)) * (1 # 2))) as [A B].
    fold c in A, B.
    destruct (toFixed2_between 1400 1800 c) as [C D];
      [lra | change (inject_Z 1400) with 1400; lra
       | change (inject_Z 1800) with 1800; lra |].
    change (inject_Z 1400) with 1400 in C.
    change (inject_Z 1800) with 1800 in D. lra.
Qed.

Hypothesis rnd_unit : forall k : nat, 0 <= fst (rnd k) /\ fst (rnd k) < 1.

Lemma priceWalk_last_two (n k : nat) (p : Q) :
  14 <= p -> p <= 18 ->
  exists (pre : list PricePoint) (a b : PricePoint) (c1 c2 : Q),
    priceWalk calendar rnd (S (S n)) k p = (pre ++ [a; b])%list
    /\ List.length pre = n
    /\ price a = JS.toFixed2 c1 /\ price b = JS.toFixed2 c2
    /\ 14 <= c1 /\ c1 <= 18 /\ 14 <= c2 /\ c2 <= 18
    /\ - (1 # 4) <= c2 - c1 /\ c2 - c1 <= 1 # 4.
Proof.
  revert k p. induction n as [|n IH]; intros k p Hlo Hhi.
  - cbn [priceWalk].
    set (d1 := (fst (rnd k) - (1 # 2)) * (1 # 2)).
    set (c1 := JSMath.max 14 (JSMath.min 18 (p + d1))).
    set (d2 := (fst (rnd (S k)) - (1 # 2)) * (1 # 2)).
    set (c2 := JSMath.max 14 (JSMath.min 18 (c1 + d2))).
    destruct (clamp_range (p + d1)) as [A1 B1]. fold c1 in A1, B1.
    destruct (clamp_range (c1 + d2)) as [A2 B2]. fold c2 in A2, B2.
    destruct (rnd_unit (S k)) as [R1 R2].
    destruct (clamp_step c1 d2 A1 B1) as [S1 S2];
      [unfold d2; lra | unfold d2; lra |]. fold c2 in S1, S2.
    eexists [], _, _, c1, c2. cbn [app].
    split; [reflexivity|]. repeat split; assumption.
  - cbn [priceWalk].
    set (d1 := (fst (rnd k) - (1 # 2)) * (1 # 2)).
    set (c := JSMath.max 14 (JSMath.min 18 (p + d1))).
    destruct (clamp_range (p + d1)) as [A B]. fold c in A, B.
    destruct (IH (S k) c A B) as (pre & a & b & c1 & c2 & E & L & H).
    cbn [priceWalk] in E. fold d1 c. rewrite E.
    eexists (_ :: pre), a, b, c1, c2.
    split; [reflexivity|]. split; [cbn; rewrite L; reflexivity | exact H].
Qed.

End Walk.

(** ** Reading the series *)

Lemma sliceFrom_negative {A : Type} (l : list A) (start : Z) :
  (start < 0)%Z ->
  sliceFrom l start = skipn (List.length l - Z.to_nat (- start)) l.
Proof.
  intro Hs. unfold sliceFrom, slice, relativeIndex.
  set (len := Z.of_nat (List.length l)).
  assert (Hlen : (0 <= len)%Z) by (unfold len; lia).
  assert (El : (len <? 0)%Z = false) by (apply Z.ltb_ge; exact Hlen).
  rewrite El, Z.min_id.
  assert (E : (start <? 0)%Z = true) by (apply Z.ltb_lt; exact Hs). rewrite E.
  replace (Z.to_nat (Z.max (len + start) 0))
    with (List.length l - Z.to_nat (- start))%nat by (unfold len; lia).
  apply firstn_all2. rewrite length_skipn. unfold len. lia.
Qed.

Lemma sliceFrom_nonnegative {A : Type} (l : list A) (start : Z) :
  (0 <= start)%Z -> sliceFrom l start = skipn (Z.to_nat start) l.
Proof.
  intro Hs. unfold sliceFrom, slice, relativeIndex.
  set (len := Z.of_nat (List.length l)).
  assert (Hlen : (0 <= len)%Z) by (unfold len; lia).
  assert (El : (len <? 0)%Z = false) by (apply Z.ltb_ge; exact Hlen).
  rewrite El, Z.min_id.
  assert (E : (start <? 0)%Z = false) by (apply Z.ltb_ge; exact Hs). rewrite E.
  destruct (Z.le_ge_cases start len) as [H | H].
  - rewrite Z.min_l by exact H.
    apply firstn_all2. rewrite length_skipn. unfold len in *. lia.
  - rewrite Z.min_r by lia. rewrite Z.sub_diag. cbn [Z.to_nat firstn].
    symmetry. apply skipn_all2. unfold len in *. lia.
Qed.

(** X15.  Whatever the random draws and the calendar, a new
    [MarketDataService] holds a price series of 31 entries, every price
    between 14 and 18, and its current price is the price of the last
    entry. *)
Theorem generated_series_is_bounded :
  forall (calendar : Z -> string) (rnd : nat -> Q * Q),
    List.length (priceHistory (newMarketDataService calendar rnd)) = 31%nat
    /\ Forall (fun pt => 14 <= price pt /\ price pt <= 18)
         (priceHistory (newMarketDataService calendar rnd))
    /\ (exists (older : list PricePoint) (latest : PricePoint),
           priceHistory (newMarketDataService calendar rnd)
           = (older ++ [latest])%list
           /\ getCurrentPrice (newMarketDataService calendar rnd) = price latest)
    /\ 14 <= getCurrentPrice (newMarketDataService calendar rnd)
    /\ getCurrentPrice (newMarketDataService calendar rnd) <= 18.
Proof.
  intros calendar rnd.
  unfold newMarketDataService, getCurrentPrice, generatePriceHistory.
  cbn [priceHistory currentPrice].
  pose proof (priceWalk_length calendar rnd 31 0 15) as Hlen.
  pose proof (priceWalk_range calendar rnd 31 0 15) as Hrange.
  set (h := priceWalk calendar rnd 31 0 15) in *.
  assert (Hne : h <> []) by (intro E; rewrite E in Hlen; discriminate).
  pose proof (app_removelast_last (mkPricePoint EmptyString 0 0) Hne) as Hsplit.
  set (older := removelast h) in *.
  set (latest := last h (mkPricePoint EmptyString 0 0)) in *.
  assert (Hcur : last (map price h) (31 # 2) = price latest).
  { rewrite Hsplit, map_app. cbn [map]. apply last_last. }
  assert (Hin : In latest h)
    by (rewrite Hsplit; apply in_or_app; right; left; reflexivity).
  pose proof (proj1 (Forall_forall _ _) Hrange latest Hin) as [A B].
  split; [exact Hlen|]. split; [exact Hrange|].
  split.
  - exists older, latest. split; [exact Hsplit | exact Hcur].
  - rewrite Hcur. split; assumption.
Qed.

Lemma relative_change_bound (t y : Q) :
  14 <= y -> - (26 # 100) <= t - y -> t - y <= 26 # 100 ->
  - inject_Z 186 <= (t - y) / y * 100 * 100
  /\ (t - y) / y * 100 * 100 <= inject_Z 186.
Proof.
  intros Hy Hlo Hhi. change (inject_Z 186) with 186.
  assert (E : (t - y) / y * 100 * 100 == (t - y) * 10000 / y) by (field; lra).
  rewrite E. split.
  - apply Qle_shift_div_l; lra.
  - apply Qle_shift_div_r; lra.
Qed.

(** X16.  [getPriceChange] is 0 for a series of fewer than two entries.
    For the generated series, with random draws in [0, 1), yesterday's
    price (the entry before the last) is at least 14, so the quotient is
    defined, and the change returned is between -1.86 and 1.86 percent. *)
Theorem getPriceChange_is_small :
  (forall m : MarketDataService,
      (List.length (priceHistory m) < 2)%nat -> getPriceChange m = 0)
  /\ (forall (calendar : Z -> string) (rnd : nat -> Q * Q),
         (forall k : nat, 0 <= fst (rnd k) /\ fst (rnd k) < 1) ->
         (exists yesterday : PricePoint,
             nth_error (priceHistory (newMarketDataService calendar rnd))
               (List.length (priceHistory (newMarketDataService calendar rnd)) - 2)
             = Some yesterday
             /\ 14 <= price yesterday
             /\ getPriceChange (newMarketDataService calendar rnd)
                = JS.toFixed2
                    ((currentPrice (newMarketDataService calendar rnd)
                      - price yesterday) / price yesterday * 100))
         /\ - (186 # 100) <= getPriceChange (newMarketDataService calendar rnd)
         /\ getPriceChange (newMarketDataService calendar rnd) <= 186 # 100).
Proof.
  split.
  - intros m Hlen. unfold getPriceChange.
    apply Nat.ltb_lt in Hlen. rewrite Hlen. reflexivity.
  - intros calendar rnd Hrnd.
    unfold getPriceChange, newMarketDataService, generatePriceHistory.
    cbn [priceHistory currentPrice].
    destruct (priceWalk_last_two calendar rnd Hrnd 29 0 15)
      as (pre & a & b & c1 & c2 & E & L & Pa & Pb & A1 & B1 & A2 & B2 & S1 & S2);
      [lra | lra |].
    rewrite E.
    assert (Hlen : List.length (pre ++ [a; b]) = 31%nat)
      by (rewrite length_app, L; reflexivity).
    rewrite Hlen. cbn [Nat.ltb Nat.leb Nat.sub].
    assert (Hnth : nth_error (pre ++ [a; b]) 29 = Some a).
    { rewrite nth_error_app2 by lia. rewrite L, Nat.sub_diag. reflexivity. }
    rewrite Hnth.
    assert (Hlast : last (map price (pre ++ [a; b])) (31 # 2) = price b).
    { change [a; b] with ([a] ++ [b])%list. rewrite app_assoc, map_app.
      cbn [map]. apply last_last. }
    rewrite Hlast.
    destruct (toFixed2_error c1) as [Ea1 Ea2]; [lra|].
    destruct (toFixed2_error c2) as [Eb1 Eb2]; [lra|].
    destruct (toFixed2_between 1400 1800 c1) as [Ya _];
      [lra | change (inject_Z 1400) with 1400; lra
       | change (inject_Z 1800) with 1800; lra |].
    change (inject_Z 1400) with 1400 in Ya.
    rewrite <- Pa in Ea1, Ea2, Ya. rewrite <- Pb in Eb1, Eb2.
    set (y := price a) in *. set (t := price b) in *.
    split.
    + exists a. split; [reflexivity|]. split; [fold y; lra | reflexivity].
    + destruct (relative_change_bound t y) as [R1 R2]; [lra | lra | lra |].
      destruct (toFixed2_symmetric_bound 186 ((t - y) / y * 100))
        as [F1 F2]; [lia | exact R1 | exact R2 |].
      change (inject_Z 186) with 186 in F1, F2.
      set (v := JS.toFixed2 ((t - y) / y * 100)) in *.
      split; lra.
Qed.

Lemma getPriceChange_is_small_witness :
  - (186 # 100)
  <= getPriceChange (newMarketDataService sampleCalendar (fun _ => (3 # 4, 1 # 2)))
  /\ getPriceChange (newMarketDataService sampleCalendar (fun _ => (3 # 4, 1 # 2)))
     <= 186 # 100.
Proof.
  apply (proj2 getPriceChange_is_small).
  intro k. cbn. split; [discriminate | reflexivity].
Defined.

(** X17.  [getPriceHistory(days)] with [days > 0] is the last [days] entries
    of the series, all of it when there are fewer; [getPriceHistory(0)] is
    the whole series, not the empty one; a negative [days] drops the first
    [-days] entries. *)
Theorem getPriceHistory_is_a_suffix :
  forall (days : Z) (m : MarketDataService),
    ((0 < days)%Z ->
     exists older : list PricePoint,
       priceHistory m = (older ++ getPriceHistory days m)%list
       /\ List.length (getPriceHistory days m)
          = Nat.min (Z.to_nat days) (List.length (priceHistory m)))
    /\ (days = 0%Z -> getPriceHistory days m = priceHistory m)
    /\ ((days < 0)%Z ->
        getPriceHistory days m = skipn (Z.to_nat (- days)) (priceHistory m)).
Proof.
  intros days m. unfold getPriceHistory. split; [|split].
  - intro H. rewrite sliceFrom_negative by lia. rewrite Z.opp_involutive.
    exists (firstn (List.length (priceHistory m) - Z.to_nat days) (priceHistory m)).
    split; [symmetry; apply firstn_skipn|].
    rewrite length_skipn. lia.
  - intro H. subst days. rewrite sliceFrom_nonnegative by discriminate.
    reflexivity.
  - intro H. apply sliceFrom_nonnegative. lia.
Qed.

Lemma getPriceHistory_is_a_suffix_witness :
  exists older : list PricePoint,
    priceHistory (newMarketDataService sampleCalendar (fun _ => (3 # 4, 1 # 2)))
    = (older ++ getPriceHistory 7
                  (newMarketDataService sampleCalendar (fun _ => (3 # 4, 1 # 2))))%list
    /\ List.length (getPriceHistory 7
                      (newMarketDataService sampleCalendar (fun _ => (3 # 4, 1 # 2))))
       = Nat.min (Z.to_nat 7)
           (List.length
              (priceHistory (newMarketDataService sampleCalendar (fun _ => (3 # 4, 1 # 2))))).
Proof.
  apply (proj1 (getPriceHistory_is_a_suffix 7
                  (newMarketDataService sampleCalendar (fun _ => (3 # 4, 1 # 2))))).
  reflexivity.
Defined.

(** * Calls and clicks with any arguments *)

Ltac js_order :=
  repeat match goal with
         | H : JS.ltb _ _ = true |- _ => apply ltb_lt in H
         | H : JS.ltb _ _ = false |- _ => apply ltb_ge in H
         | H : JS.leb _ _ = true |- _ => apply leb_le in H
         | H : JS.leb _ _ = false |- _ => apply leb_gt in H
         end.

Lemma exec_positive_amount_keeps_nonNegative (e : Env) (o : Op) (w : World) :
  nonNegative w -> (forall a : Q, opAmount o = Some a -> 0 < a) ->
  nonNegative (exec e o w).
Proof.
  intros (Hl & Hs & Hr) Hpos. unfold exec, nonNegative.
  destruct o as [p a | a sl | a sl | a | a | | a r]; cbn in Hpos;
    try (pose proof (Hpos a eq_refl) as Ha); clear Hpos;
    unfold perform; js_cases w e; js_order; js_fields;
    try (repeat split; lra).
  assert (Hq : 0 < calculateSwapOutput a 15500000 1000000 defaultFee)
    by (apply quote_pos; try reflexivity; assumption).
  repeat split; lra.
Qed.



Lemma invalidAmount_false (amount : option Q) :
  invalidAmount amount = false -> exists a : Q, amount = Some a /\ 0 < a.
Proof.
  destruct amount as [a|]; cbn; [|discriminate].
  intro H. apply orb_false_iff in H. destruct H as [_ H].
  apply leb_gt in H. exists a. split; [reflexivity | exact H].
Qed.

Lemma handle_keeps_nonNegative (e : Env) (c : Click) (w : World) :
  nonNegative w -> nonNegative (handle e c w).
Proof.
  intro Hw.
  destruct c as [a sl | a sl | a | a | | a r ok]; cbn [handle];
    unfold executeBuyTrade, executeSellTrade, executeStake, executeUnstake,
      executeClaimRewards, executeRetirement;
    destruct (connected w) eqn:Hc; cbn [negb]; try exact Hw.
  - destruct a as [a|]; [|exact Hw].
    destruct (Qeq_bool a 0 || JS.leb a 0) eqn:G; [exact Hw|].
    apply orb_false_iff in G. destruct G as [_ G]. apply leb_gt in G.
    pose proof (exec_positive_amount_keeps_nonNegative e (OpBuy a sl) w Hw) as H.
    unfold exec, perform in H. rewrite snd_drop_result in H.
    destruct (swapUSDTForTCO2 e a sl w) as [[res|err] w'] eqn:E; cbn in *;
      apply H; intros x Hx; inversion Hx; subst; exact G.
  - destruct (invalidAmount a) eqn:G; [exact Hw|].
    apply invalidAmount_false in G. destruct G as (x & -> & Hx). cbn [amountOf].
    pose proof (exec_positive_amount_keeps_nonNegative e (OpSell x sl) w Hw) as H.
    unfold exec, perform in H. rewrite snd_drop_result in H.
    apply H. intros y Hy; inversion Hy; subst; exact Hx.
  - destruct (invalidAmount a) eqn:G; [exact Hw|].
    apply invalidAmount_false in G. destruct G as (x & -> & Hx). cbn [amountOf].
    pose proof (exec_positive_amount_keeps_nonNegative e (OpStake x) w Hw) as H.
    unfold exec, perform in H. rewrite snd_drop_result in H.
    apply H. intros y Hy; inversion Hy; subst; exact Hx.
  - destruct (invalidAmount a) eqn:G; [exact Hw|].
    apply invalidAmount_false in G. destruct G as (x & -> & Hx). cbn [amountOf].
    pose proof (exec_positive_amount_keeps_nonNegative e (OpUnstake x) w Hw) as H.
    unfold exec, perform in H. rewrite snd_drop_result in H.
    apply H. intros y Hy; inversion Hy; subst; exact Hx.
  - pose proof (exec_positive_amount_keeps_nonNegative e OpClaimRewards w Hw) as H.
    unfold exec, perform in H. rewrite snd_drop_result in H.
    apply H. intros y Hy; inversion Hy.
  - destruct (invalidAmount a) eqn:G; [exact Hw|].
    destruct ok; cbn [negb]; [|exact Hw].
    apply invalidAmount_false in G. destruct G as (x & -> & Hx). cbn [amountOf].
    pose proof (exec_positive_amount_keeps_nonNegative e (OpBurn x r) w Hw) as H.
    unfold exec, perform in H. rewrite snd_drop_result in H.
    apply H. intros y Hy; inversion Hy; subst; exact Hx.
Qed.

(** X19.  Through the click handlers no typed amount that is a finite
    number or no number at all makes a balance negative: from non-negative
    balances, after any session of buy, sell, stake, unstake, claim and
    retire clicks with such amounts, of any sign, and whatever the store
    answers, the three balance fields are >= 0.  An infinite amount
    ([parseFloat] of "1e999") is not among them: it passes the guard
    [!amount || amount <= 0], and the buy quoted for it is [NaN], which
    added to a balance of 100 leaves [NaN]. *)
Theorem clicks_keep_balances_nonNegative :
  (forall (clicks : list (Env * Click)) (w : World),
      nonNegative w -> nonNegative (handleAll w clicks))
  /\ PrimFloat.leb PrimFloat.infinity 0 = false
  /\ PrimFloat.is_nan
       (Binary64.calculateSwapOutput PrimFloat.infinity 15500000 1000000
          Binary64.defaultFee) = true
  /\ PrimFloat.is_nan
       (PrimFloat.add 100
          (Binary64.calculateSwapOutput PrimFloat.infinity 15500000 1000000
             Binary64.defaultFee)) = true.
Proof.
  split; [|split; [|split]]; [|vm_compute; reflexivity ..].
  unfold handleAll.
  induction clicks as [|[e c] rest IH]; intros w Hw; cbn.
  - exact Hw.
  - apply IH. apply handle_keeps_nonNegative. exact Hw.
Qed.

Lemma clicks_keep_balances_nonNegative_witness :
  nonNegative (handleAll (connectedWorld 100 5 1) sampleClicks).
Proof.
  apply (proj1 clicks_keep_balances_nonNegative).
  unfold nonNegative. cbn. repeat split; discriminate.
Defined.

(** X20.  A click is without effect when the wallet is not connected, when
    the amount typed is no number, zero or negative, and, for a retirement,
    when the confirmation is declined: the world is left as it was. *)
Theorem rejected_clicks_change_nothing :
  forall (e : Env) (w : World),
    (connected w = false -> forall c : Click, handle e c w = w)
    /\ (forall (amount : option Q) (sl : Q) (r : string) (ok : bool),
           invalidAmount amount = true ->
           handle e (ClickBuy amount sl) w = w
           /\ handle e (ClickSell amount sl) w = w
           /\ handle e (ClickStake amount) w = w
           /\ handle e (ClickUnstake amount) w = w
           /\ handle e (ClickRetire amount r ok) w = w)
    /\ (forall (amount : option Q) (r : string),
           handle e (ClickRetire amount r false) w = w).
Proof.
  intros e w. split; [|split].
  - intros Hc c.
    destruct c; cbn [handle];
      unfold executeBuyTrade, executeSellTrade, executeStake, executeUnstake,
        executeClaimRewards, executeRetirement; rewrite Hc; reflexivity.
  - intros amount sl r ok G. cbn [handle].
    unfold executeBuyTrade, executeSellTrade, executeStake, executeUnstake,
      executeRetirement.
    rewrite G. destruct (connected w); cbn [negb].
    + repeat split; try reflexivity.
      destruct amount as [a|]; [|reflexivity]. cbn in G. rewrite G. reflexivity.
    + repeat split; reflexivity.
  - intros amount r. cbn [handle]. unfold executeRetirement.
    destruct (connected w); cbn [negb]; [|reflexivity].
    destruct (invalidAmount amount); reflexivity.
Qed.

Lemma rejected_clicks_change_nothing_witness :
  handle envOk (ClickStake (Some (-10))) (connectedWorld 100 5 1)
  = connectedWorld 100 5 1.
Proof.
  apply (proj1 (proj2 (rejected_clicks_change_nothing envOk
                         (connectedWorld 100 5 1)))
           (Some (-10)) 0 ""%string true).
  reflexivity.
Defined.

(** * The wallet manager *)

(** X21.  After [disconnect] the three balances are 0 while the history,
    the certificates and the statistics are kept, and every call of the
    contract layer throws [NotConnected] and changes nothing. *)
Theorem disconnect_locks_the_ledger :
  forall w : World,
    liquidAmount (disconnect w) = 0
    /\ stakedAmount (disconnect w) = 0
    /\ pendingRewards (disconnect w) = 0
    /\ history (disconnect w) = history w
    /\ certificates (disconnect w) = certificates w
    /\ stats (app (disconnect w)) = stats (app w)
    /\ forall (e : Env) (o : Op),
         perform e o (disconnect w) = (Thrown NotConnected, disconnect w).
Proof.
  intro w. repeat split. intros e o. destruct o; reflexivity.
Qed.

Lemma floor_scaled_bounds (r : Q) (n : Z) :
  (0 < n)%Z -> 0 <= r -> r < 1 ->
  (0 <= JSMath.floor (r * inject_Z n) <= n - 1)%Z.
Proof.
  intros Hn H0 H1. unfold JSMath.floor.
  assert (Hq : 0 < inject_Z n)
    by (change 0 with (inject_Z 0); rewrite <- Zlt_Qlt; exact Hn).
  apply Qfloor_between.
  - change (inject_Z 0) with 0. nra.
  - assert (E : inject_Z (n - 1) == inject_Z n - 1).
    { unfold Z.sub. rewrite inject_Z_plus, inject_Z_opp. reflexivity. }
    rewrite E. nra.
Qed.

Lemma hundredth_bounds (z n : Z) :
  (0 <= z <= n)%Z -> 0 <= inject_Z z / 100 /\ inject_Z z / 100 <= inject_Z n / 100.
Proof.
  intros [A B]. rewrite Zle_Qle in A, B. change (inject_Z 0) with 0 in A.
  split.
  - apply Qle_shift_div_l; lra.
  - apply Qle_shift_div_l; [lra|].
    assert (E : inject_Z z / 100 * 100 == inject_Z z) by field.
    rewrite E. exact B.
Qed.

(** X22.  [updateBalances] does nothing when the wallet is not connected
    or the provider fails.  Otherwise, with random draws in [0, 1), it
    overwrites the balances, whatever they were, with a liquid balance in
    [0, 99.99], a staked balance in [0, 49.99] and rewards in [0, 6], and
    leaves the history and the certificates alone. *)
Theorem updateBalances_sets_bounded_balances :
  forall (d : BalanceDraws) (w : World),
    (connected w = false -> updateBalances d w = w)
    /\ (maticBalance d = None -> updateBalances d w = w)
    /\ (connected w = true -> maticBalance d <> None ->
        0 <= rndLiquid d < 1 -> 0 <= rndStaked d < 1 -> 0 <= rndRewards d < 1 ->
        nonNegative (updateBalances d w)
        /\ liquidAmount (updateBalances d w) <= 9999 # 100
        /\ stakedAmount (updateBalances d w) <= 4999 # 100
        /\ pendingRewards (updateBalances d w) <= 6
        /\ history (updateBalances d w) = history w
        /\ certificates (updateBalances d w) = certificates w).
Proof.
  intros d w. unfold updateBalances. split; [|split].
  - intro Hc. rewrite Hc. reflexivity.
  - intro Hm. rewrite Hm. destruct (connected w); reflexivity.
  - intros Hc Hm [L0 L1] [S0 S1] [R0 R1]. rewrite Hc. cbn [negb].
    destruct (maticBalance d) as [matic|]; [|congruence].
    unfold nonNegative, liquidAmount, stakedAmount, pendingRewards, history,
      certificates, updWallet.
    cbn [app wallet tCO2Balance stakedBalance rewards transactions retirements].
    pose proof (floor_scaled_bounds (rndLiquid d) 10000 eq_refl L0 L1) as FL.
    pose proof (floor_scaled_bounds (rndStaked d) 5000 eq_refl S0 S1) as FS.
    change (inject_Z 10000) with 10000 in FL.
    change (inject_Z 5000) with 5000 in FS.
    destruct (hundredth_bounds _ _ FL) as [A1 A2].
    destruct (hundredth_bounds _ _ FS) as [B1 B2].
    cbn [Z.sub Z.add Z.pos_sub Z.opp] in A2, B2.
    set (l := inject_Z (JSMath.floor (rndLiquid d * 10000)) / 100) in *.
    set (s := inject_Z (JSMath.floor (rndStaked d * 5000)) / 100) in *.
    assert (A3 : l <= 9999 # 100)
      by (apply (Qle_trans _ _ _ A2); discriminate).
    assert (B3 : s <= 4999 # 100)
      by (apply (Qle_trans _ _ _ B2); discriminate).
    assert (P0 : 0 <= s * (12 # 100) * rndRewards d) by nra.
    assert (P1 : s * (12 # 100) * rndRewards d <= 6) by nra.
    destruct (toFixed2_between 0 600 (s * (12 # 100) * rndRewards d) P0)
      as [F0 F1];
      [change (inject_Z 0) with 0; lra | change (inject_Z 600) with 600; lra |].
    change (inject_Z 0) with 0 in F0. change (inject_Z 600) with 600 in F1.
    repeat split; try assumption; try reflexivity; lra.
Qed.

Lemma updateBalances_sets_bounded_balances_witness :
  nonNegative
    (updateBalances
       {| maticBalance := Some (5 # 4); rndLiquid := 1 # 3; rndStaked := 2 # 3;
          rndRewards := 1 # 2 |}
       (connectedWorld (-7) (-3) (-1))).
Proof.
  apply (proj2 (proj2 (updateBalances_sets_bounded_balances
                         {| maticBalance := Some (5 # 4); rndLiquid := 1 # 3;
                            rndStaked := 2 # 3; rndRewards := 1 # 2 |}
                         (connectedWorld (-7) (-3) (-1))))).
  - reflexivity.
  - discriminate.
  - split; [discriminate | reflexivity].
  - split; [discriminate | reflexivity].
  - split; [discriminate | reflexivity].
Defined.

(** * Short addresses and relative times *)

Lemma length_append (s1 s2 : string) :
  String.length (s1 ++ s2)%string = (String.length s1 + String.length s2)%nat.
Proof.
  induction s1 as [|c s1 IH]; cbn; [reflexivity | rewrite IH; reflexivity].
Qed.

Lemma length_substring (n m : nat) (s : string) :
  String.length (substring n m s) = Nat.min m (String.length s - n).
Proof.
  revert n m. induction s as [|c s IH]; intros n m.
  - destruct n, m; reflexivity.
  - destruct n as [|n].
    + destruct m as [|m]; [reflexivity|]. cbn. rewrite IH.
      rewrite Nat.sub_0_r. reflexivity.
    + cbn. apply IH.
Qed.

(** X23.  [getShortAddress] is empty when there is no address or the
    address is empty.  Otherwise it is the first six characters, three
    dots and the characters from index 38 on, so a 42-character address is
    shortened to 13 characters and an address of at most 38 characters
    ends with the dots. *)
Theorem getShortAddress_shape :
  forall w : World,
    (walletAddress w = None -> getShortAddress w = ""%string)
    /\ (walletAddress w = Some ""%string -> getShortAddress w = ""%string)
    /\ forall a : string,
         walletAddress w = Some a -> a <> ""%string ->
         getShortAddress w
         = (substring 0 6 a ++ "..." ++ substring 38 (String.length a - 38) a)%string
         /\ String.length (getShortAddress w)
            = (Nat.min 6 (String.length a) + 3 + (String.length a - 38))%nat
         /\ (String.length a = 42%nat -> String.length (getShortAddress w) = 13%nat)
         /\ ((String.length a <= 38)%nat ->
             getShortAddress w = (substring 0 6 a ++ "...")%string).
Proof.
  intro w. unfold getShortAddress. split; [|split].
  - intro H. rewrite H. reflexivity.
  - intro H. rewrite H. reflexivity.
  - intros a H Hne. rewrite H.
    apply String.eqb_neq in Hne. rewrite Hne.
    assert (L : String.length
                  (substring 0 6 a ++ "..." ++ substring 38 (String.length a - 38) a)%string
                = (Nat.min 6 (String.length a) + 3 + (String.length a - 38))%nat).
    { rewrite !length_append, !length_substring. cbn [String.length]. lia. }
    split; [reflexivity|]. split; [exact L|]. split.
    + intro H42. rewrite L, H42. reflexivity.
    + intro H38.
      replace (String.length a - 38)%nat with 0%nat by lia.
      assert (E : substring 38 0 a = ""%string).
      { clear. generalize 38%nat. induction a as [|c a IH]; intro n.
        - destruct n; reflexivity.
        - destruct n; [reflexivity | cbn; apply IH]. }
      rewrite E. reflexivity.
Qed.

Lemma getShortAddress_shape_witness :
  String.length
    (getShortAddress
       {| connected := true;
          walletAddress := Some "0x1234567890123456789012345678901234567890"%string;
          app := app (connectedWorld 0 0 0) |})
  = 13%nat.
Proof.
  apply (proj2 (proj2 (getShortAddress_shape _))
           "0x1234567890123456789012345678901234567890"%string);
    [reflexivity | discriminate | reflexivity].
Defined.

(** X24.  [formatTimestamp] shows "Just now" for every timestamp less than
    a minute old, those in the future included; a count of minutes from 1
    to 59, of hours from 1 to 23, of days from 1 to 6, each the age rounded
    down; and the date from seven days on. *)
Theorem formatTimestamp_ranges :
  forall now timestamp : Z,
    match formatTimestamp now timestamp with
    | JustNow => (now - timestamp < 60000)%Z
    | MinutesAgo m =>
        (1 <= m <= 59 /\ 60000 * m <= now - timestamp < 60000 * (m + 1))%Z
    | HoursAgo h =>
        (1 <= h <= 23 /\ 3600000 * h <= now - timestamp < 3600000 * (h + 1))%Z
    | DaysAgo d =>
        (1 <= d <= 6 /\ 86400000 * d <= now - timestamp < 86400000 * (d + 1))%Z
    | LocaleDate t => t = timestamp /\ (7 * 86400000 <= now - timestamp)%Z
    end.
Proof.
  intros now timestamp. unfold formatTimestamp.
  set (diff := (now - timestamp)%Z).
  destruct (diff / 60000 <? 1)%Z eqn:E1;
    [apply Z.ltb_lt in E1 | apply Z.ltb_ge in E1].
  { Z.div_mod_to_equations. lia. }
  destruct (diff / 60000 <? 60)%Z eqn:E2;
    [apply Z.ltb_lt in E2 | apply Z.ltb_ge in E2].
  { Z.div_mod_to_equations. lia. }
  destruct (diff / 3600000 <? 24)%Z eqn:E3;
    [apply Z.ltb_lt in E3 | apply Z.ltb_ge in E3].
  { Z.div_mod_to_equations. lia. }
  destruct (diff / 86400000 <? 7)%Z eqn:E4;
    [apply Z.ltb_lt in E4 | apply Z.ltb_ge in E4].
  { Z.div_mod_to_equations. lia. }
  split; [reflexivity|]. Z.div_mod_to_equations. lia.
Qed.

Lemma loadMarketData_buys_first_witness :
  Forall (fun tx => type (body tx) = "buy"%string)
         (loadMarketData (execAll (connectedWorld 100 5 1) elevenBuysThenSell)).
Proof.
  apply (proj2 (proj2 (loadMarketData_buys_first
                         (execAll (connectedWorld 100 5 1) elevenBuysThenSell)))).
  apply Nat.leb_le. vm_compute. reflexivity.
Defined.

(** * Retirement and amounts of any sign *)

(** X25.  A [burn] that returns has taken exactly the amount from the
    liquid balance and added it to [stats.totalRetired], stored exactly one
    new certificate (for the amount, the wallet address and the reason
    given, with the content address the store returned) and put exactly one
    new retire record, pointing to that certificate, in front of the
    history. *)
Theorem burn_issues_one_certificate :
  forall (e : Env) (w : World) (amount : Q) (reason c : string),
    connected w = true -> amount <= liquidAmount w -> uploadResult e = Some c ->
    exists (tx : Transaction) (cert : Certificate) (w' : World),
      burn e amount reason w = (Returned (tx, cert), w')
      /\ liquidAmount w' == liquidAmount w - amount
      /\ totalRetiredOf w' == totalRetiredOf w + amount
      /\ certificates w' = cert :: certificates w
      /\ history w' = tx :: history w
      /\ body tx = RetireTx amount (cert_id cert)
      /\ cert_id cert = certificateId e
      /\ cert_amount cert = amount
      /\ cert_wallet cert = walletAddress w
      /\ cert_reason cert = reason
      /\ ipfsHash cert = Some c.
Proof.
  intros e w amount reason c Hc Ha Hu.
  apply ltb_ge in Ha. unfold liquidAmount in Ha.
  js_unfold. rewrite Hc. cbn. rewrite Ha. cbn. rewrite Hu. cbn.
  do 3 eexists. split; [reflexivity|].
  unfold totalRetiredOf. js_fields.
  repeat split; reflexivity.
Qed.

Lemma burn_issues_one_certificate_witness :
  exists (tx : Transaction) (cert : Certificate) (w' : World),
    burn envOk 10 "offset" (connectedWorld 100 5 1) = (Returned (tx, cert), w')
    /\ liquidAmount w' == liquidAmount (connectedWorld 100 5 1) - 10
    /\ totalRetiredOf w' == totalRetiredOf (connectedWorld 100 5 1) + 10
    /\ certificates w' = cert :: certificates (connectedWorld 100 5 1)
    /\ history w' = tx :: history (connectedWorld 100 5 1)
    /\ body tx = RetireTx 10 (cert_id cert)
    /\ cert_id cert = certificateId envOk
    /\ cert_amount cert = 10
    /\ cert_wallet cert = walletAddress (connectedWorld 100 5 1)
    /\ cert_reason cert = "offset"%string
    /\ ipfsHash cert = Some "Qm1"%string.
Proof.
  apply burn_issues_one_certificate.
  - reflexivity.
  - vm_compute. discriminate.
  - reflexivity.
Defined.


